(** * Slot machine simulator ([app.py]): payout, spin and session bookkeeping

    A shallow embedding of the game logic of [app.py]: the symbol and payout
    tables, [spin_once], [evaluate_spin], [do_spin], the reset, spin and
    auto-spin handlers of the page script, and the properties of the
    spin/payout/history state machine; and of the image helper
    [render_reels_as_image], as the drawing calls it makes.

    Python integers are unbounded and are modelled by [Z]; an f-string
    prints an integer only if it has at most 4300 digits, and raises
    [ValueError] otherwise.  Python strings are modelled by [string] (the
    UTF-8 bytes of the source text); the one floating-point expression of
    the game logic, [int(bet * 1.5)], is modelled over the IEEE 754
    binary64 specification of [SpecFloat]. *)

From Stdlib Require Import ZArith List String Ascii Bool Lia.
From Stdlib Require Import SpecFloat DecimalString Permutation.
Import ListNotations.
Local Open Scope string_scope.
Local Open Scope list_scope.
Local Open Scope Z_scope.

(* ------------------------------------------------------------------ *)
(** ** Python values used by the game logic *)

(** The exceptions the game logic can raise. *)
Inductive exn : Type :=
| IndexError
| OverflowError
| ValueError.

(** The outcome of evaluating a Python expression: a value or a raised
    exception. *)
Inductive res (A : Type) : Type :=
| Ret (a : A)
| Raise (e : exn).
Arguments Ret {A} a.
Arguments Raise {A} e.

Definition res_bind {A B : Type} (r : res A) (k : A -> res B) : res B :=
  match r with
  | Ret a => k a
  | Raise e => Raise e
  end.

(** The decimal numeral of an integer, with a minus sign when it is
    negative. *)
Definition decimal (n : Z) : string := NilZero.string_of_int (Z.to_int n).

(** CPython converts an integer to a decimal string only if it has at most
    4300 digits (the default of [sys.set_int_max_str_digits]): the integers
    it prints are those below 10^4300 in absolute value. *)
Definition str_limit : Z := Eval vm_compute in 10 ^ 4300.

(** [str(n)] for an integer [n], as an f-string field [{n}] prints it:
    [ValueError] when [n] has more than 4300 digits. *)
Definition str (n : Z) : res string :=
  if Z.abs n <? str_limit then Ret (decimal n) else Raise ValueError.

(** An f-string is the concatenation of its literal parts and its fields. *)
Definition fstring (parts : list string) : string := String.concat "" parts.

(** [d.get(k, default)] on a dictionary with string keys, kept as the list of
    its items in source order. *)
Fixpoint dict_get (d : list (string * Z)) (k : string) (default : Z) : Z :=
  match d with
  | [] => default
  | (k', v) :: d' => if String.eqb k' k then v else dict_get d' k default
  end.

(* ------------------------------------------------------------------ *)
(** ** Floats: binary64, as CPython's [float] *)

Definition prec : Z := 53.
Definition emax : Z := 1024.

(** [float(n)] for an integer [n]: the nearest double, ties to even;
    [OverflowError] when that is out of range. *)
Definition float_of_int (n : Z) : res spec_float :=
  match binary_normalize prec emax n 0 false with
  | S754_infinity _ => Raise OverflowError
  | f => Ret f
  end.

(** The float literal [1.5], that is 3 * 2^51 * 2^-52. *)
Definition float_1_5 : spec_float := S754_finite false 6755399441055744 (-52).

(** [n * x] for an integer [n] and a float [x]: [n] is converted first. *)
Definition int_mul_float (n : Z) (x : spec_float) : res spec_float :=
  res_bind (float_of_int n) (fun f => Ret (SFmul prec emax f x)).

(** [int(x)] for a float [x]: truncation toward zero; an infinity raises
    [OverflowError] and NaN raises [ValueError]. *)
Definition int_of_float (x : spec_float) : res Z :=
  match x with
  | S754_zero _ => Ret 0
  | S754_finite s m e =>
      let a := match e with
               | Z0 => Zpos m
               | Zpos _ => Zpos m * 2 ^ e
               | Zneg _ => Zpos m / 2 ^ (- e)
               end in
      Ret (if s then - a else a)
  | S754_infinity _ => Raise OverflowError
  | S754_nan => Raise ValueError
  end.

(* ------------------------------------------------------------------ *)
(** ** Config and constants *)

Definition SYMBOLS : list string :=
  ["🍒"; "🔔"; "🍋"; "💎"; "7️⃣"; "🍀"; "🍉"].

Definition PAYOUT_TABLE : list (string * Z) :=
  [("🍒", 5); ("🔔", 8); ("🍋", 4); ("💎", 12); ("7️⃣", 50); ("🍀", 10);
   ("🍉", 6)].

Definition START_BALANCE : Z := 1000.

(* ------------------------------------------------------------------ *)
(** ** Image helpers *)

(** An RGB colour. *)
Definition color : Type := (Z * Z * Z)%type.

(** The calls [render_reels_as_image] makes on the [ImageDraw] object of the
    image, with their arguments. *)
Inductive shape : Type :=
| RoundedRectangle (x0 y0 x1 y1 : Z) (radius : Z) (fill : color)
| Text (x y : Z) (text : string) (fill : color)
| Rectangle (x0 y0 x1 y1 : Z) (outline : color).

(** The image [render_reels_as_image] returns: its size and background, as
    given to [Image.new], and what was drawn on it, in order. *)
Record picture : Type := {
  size : Z * Z;
  background : color;
  shapes : list shape
}.

(** [ImageDraw.rounded_rectangle] and [ImageDraw.rectangle] take the corners
    [(x0, y0, x1, y1)] of the rectangle and raise [ValueError] when [x1 < x0]
    or [y1 < y0]. *)
Definition check_corners (x0 y0 x1 y1 : Z) : res unit :=
  if (x1 <? x0) || (y1 <? y0) then Raise ValueError else Ret tt.

(** [Image.new(mode, (width, height), color)] raises [ValueError] on a
    negative width or height. *)
Definition check_size (width height : Z) : res unit :=
  if (width <? 0) || (height <? 0) then Raise ValueError else Ret tt.

(** The [for symbol in reels] loop of [render_reels_as_image], with [x] the
    left edge of the next box: the shapes drawn, in order, unless a box is
    refused.  The [draw.text] call is kept with its arguments; what the
    font makes of the symbol is not modelled. *)
Fixpoint draw_boxes (reels : list string) (x box_w gap height : Z)
  : res (list shape) :=
  match reels with
  | [] => Ret []
  | symbol :: reels' =>
      let rect := (x, 12, x + box_w, height - 12) in
      res_bind (check_corners x 12 (x + box_w) (height - 12))
        (fun _ =>
           let tx := x + box_w / 4 in
           let ty := height / 4 in
           res_bind (draw_boxes reels' (x + box_w + gap) box_w gap height)
             (fun rest =>
                Ret (RoundedRectangle x 12 (x + box_w) (height - 12) 12
                       (255, 255, 255)
                       :: Text tx ty symbol (20, 20, 20)
                       :: rest)))
  end.

(** [render_reels_as_image(reels, width, height, bg)]; [//] on integers is
    the floor division.  The image is returned only if every drawing call
    accepted its arguments; running out of memory on a very large image is
    not modelled. *)
Definition render_reels_as_image (reels : list string) (width height : Z)
  (bg : color) : res picture :=
  res_bind (check_size width height)
    (fun _ =>
       let box_w := (width - 40) / 3 in
       let gap := 10 in
       let x := 20 in
       res_bind (draw_boxes reels x box_w gap height)
         (fun drawn_boxes =>
            res_bind (check_corners 0 0 (width - 1) (height - 1))
              (fun _ =>
                 Ret {| size := (width, height);
                        background := bg;
                        shapes :=
                          drawn_boxes
                            ++ [Rectangle 0 0 (width - 1) (height - 1)
                                  (230, 180, 255)] |}))).

(* ------------------------------------------------------------------ *)
(** ** Game logic: payout *)

(** [int(bet * 1.5)], the two-of-a-kind payout. *)
Definition pair_win (bet : Z) : res Z :=
  res_bind (int_mul_float bet float_1_5) int_of_float.

(** [evaluate_spin(reels, bet)].  Indexing [reels[0..2]] raises [IndexError]
    on a shorter list; every path of the source reads all three positions
    or raises before returning.  The message of a win is an f-string with
    the field [{win}]. *)
Definition evaluate_spin (reels : list string) (bet : Z) : res (Z * string) :=
  match reels with
  | r0 :: r1 :: r2 :: _ =>
      if String.eqb r0 r1 && String.eqb r1 r2 then
        let sym := r0 in
        let multiplier := dict_get PAYOUT_TABLE sym 0 in
        let win := bet * multiplier in
        res_bind (str win)
          (fun text =>
             Ret (win,
                  fstring ["🎉 Three "; sym; "! You win "; text; " coins."]))
      else if String.eqb r0 r1 || String.eqb r0 r2 || String.eqb r1 r2 then
        res_bind (pair_win bet)
          (fun win =>
             res_bind (str win)
               (fun text =>
                  Ret (win,
                       fstring ["🙂 Two of a kind — you win "; text;
                                " coins."])))
      else Ret (0, "😞 No match — try again.")
  | _ => Raise IndexError
  end.

(* ------------------------------------------------------------------ *)
(** ** Wall-clock time *)

(** A [datetime] value, as [datetime.now()] returns it. *)
Record datetime : Type := {
  year : nat;
  month : nat;
  day : nat;
  hour : nat;
  minute : nat;
  second : nat
}.

(** The decimal digit character of [d mod 10]. *)
Definition digit (d : nat) : ascii := ascii_of_nat (48 + d mod 10)%nat.

(** A field zero-padded to two digits ([%m], [%d], [%H], [%M], [%S]) and the
    year on four digits ([%Y]), as for the fields of every [datetime] from
    the year 1000 on (months 1 to 12, ...), which is all a clock
    returns. *)
Definition pad2 (n : nat) : string :=
  String (digit (n / 10)) (String (digit n) EmptyString).

Definition pad4 (n : nat) : string :=
  String (digit (n / 1000)) (String (digit (n / 100)) (pad2 n)).

(** [t.strftime("%Y-%m-%d %H:%M:%S")]. *)
Definition strftime (t : datetime) : string :=
  fstring [pad4 (year t); "-"; pad2 (month t); "-"; pad2 (day t); " ";
           pad2 (hour t); ":"; pad2 (minute t); ":"; pad2 (second t)].

(* ------------------------------------------------------------------ *)
(** ** Session state *)

(** One row of the spin history: the dictionary [do_spin] inserts, with its
    six keys. *)
Module Entry.
Record t : Type := mk {
  timestamp : string;
  reels : string;
  bet : Z;
  win : Z;
  balance_after : Z;
  message : string
}.
End Entry.

(** The keys of [st.session_state] once [init_state] and the
    [action_in_progress] default have run. *)
Record session_state : Type := {
  balance : Z;
  last_reels : list string;
  last_bet : Z;
  message : string;
  history : list Entry.t;
  auto_running : bool;
  action_in_progress : bool
}.

Definition set_balance (v : Z) (s : session_state) : session_state :=
  {| balance := v; last_reels := last_reels s; last_bet := last_bet s;
     message := message s; history := history s;
     auto_running := auto_running s;
     action_in_progress := action_in_progress s |}.

Definition set_last_reels (v : list string) (s : session_state)
  : session_state :=
  {| balance := balance s; last_reels := v; last_bet := last_bet s;
     message := message s; history := history s;
     auto_running := auto_running s;
     action_in_progress := action_in_progress s |}.

Definition set_last_bet (v : Z) (s : session_state) : session_state :=
  {| balance := balance s; last_reels := last_reels s; last_bet := v;
     message := message s; history := history s;
     auto_running := auto_running s;
     action_in_progress := action_in_progress s |}.

Definition set_message (v : string) (s : session_state) : session_state :=
  {| balance := balance s; last_reels := last_reels s; last_bet := last_bet s;
     message := v; history := history s;
     auto_running := auto_running s;
     action_in_progress := action_in_progress s |}.

Definition set_history (v : list Entry.t) (s : session_state)
  : session_state :=
  {| balance := balance s; last_reels := last_reels s; last_bet := last_bet s;
     message := message s; history := v;
     auto_running := auto_running s;
     action_in_progress := action_in_progress s |}.

Definition set_auto_running (v : bool) (s : session_state) : session_state :=
  {| balance := balance s; last_reels := last_reels s; last_bet := last_bet s;
     message := message s; history := history s;
     auto_running := v;
     action_in_progress := action_in_progress s |}.

Definition set_action_in_progress (v : bool) (s : session_state)
  : session_state :=
  {| balance := balance s; last_reels := last_reels s; last_bet := last_bet s;
     message := message s; history := history s;
     auto_running := auto_running s;
     action_in_progress := v |}.

(** [init_state()] on a new session, followed by the [action_in_progress]
    default of the page script.  On a session that has the keys,
    [setdefault] changes nothing. *)
Definition init_state : session_state :=
  {| balance := START_BALANCE;
     last_reels := ["-"; "-"; "-"];
     last_bet := 0;
     message := "Selamat datang! Gunakan koin mainan untuk bermain.";
     history := [];
     auto_running := false;
     action_in_progress := false |}.

(* ------------------------------------------------------------------ *)
(** ** The world a page run acts on *)

Inductive sound : Type :=
| SPIN_SOUND
| WIN_SOUND.

(** What a run shows or does besides changing the session: the calls to
    [st.warning], [st.success], [st.info], [img_placeholder.image],
    [st.audio], [st.dataframe], the CSV download and [time.sleep], and the
    one [st.markdown] call whose text depends on the session.  [Image reels]
    is the image [render_reels_as_image(reels)] draws at its default size,
    540 by 160. *)
Inductive effect : Type :=
| Warning (text : string)
| Success (text : string)
| Info (text : string)
| Markdown (text : string)
| Image (reels : list string)
| Audio (s : sound)
| Dataframe (rows : list Entry.t)
| Download (rows : list Entry.t)
| Sleep (seconds : spec_float).

(** The session store, the random source, the wall clock and the effects
    performed so far, newest first.  [entropy] is the sequence of raw draws
    of the random source and [drawn] how many were consumed; [wall_clock] is
    what successive readings of the clock return. *)
Record world : Type := {
  session : session_state;
  entropy : nat -> nat;
  drawn : nat;
  wall_clock : nat -> datetime;
  clock_reads : nat;
  effects : list effect
}.

Definition with_session (s : session_state) (w : world) : world :=
  {| session := s; entropy := entropy w; drawn := drawn w;
     wall_clock := wall_clock w; clock_reads := clock_reads w;
     effects := effects w |}.

(** Statements run in the world and either complete or raise; what they did
    before raising stays done. *)
Definition M (A : Type) : Type := world -> res A * world.

Definition ret {A : Type} (a : A) : M A := fun w => (Ret a, w).

Definition bind {A B : Type} (m : M A) (k : A -> M B) : M B :=
  fun w =>
    match m w with
    | (Ret a, w') => k a w'
    | (Raise e, w') => (Raise e, w')
    end.

Declare Scope py_scope.
Delimit Scope py_scope with py.
Notation "x <- m ;; k" := (bind m (fun x => k))
  (at level 61, m at next level, right associativity) : py_scope.
Notation "' pat <- m ;; k" := (bind m (fun x => match x with pat => k end))
  (at level 61, pat pattern, m at next level, right associativity) : py_scope.
Notation "m ;; k" := (bind m (fun _ => k))
  (at level 61, right associativity) : py_scope.
Local Open Scope py_scope.

Definition lift {A : Type} (r : res A) : M A := fun w => (r, w).

Definition get_session : M session_state := fun w => (Ret (session w), w).

Definition modify (f : session_state -> session_state) : M unit :=
  fun w => (Ret tt, with_session (f (session w)) w).

Definition emit (e : effect) : M unit :=
  fun w =>
    (Ret tt,
     {| session := session w; entropy := entropy w; drawn := drawn w;
        wall_clock := wall_clock w; clock_reads := clock_reads w;
        effects := e :: effects w |}).

Definition when (c : bool) (m : M unit) : M unit := if c then m else ret tt.

(** [random.choice(seq)]: the element at a uniformly drawn index below
    [len(seq)], here the next raw draw reduced modulo the length;
    [IndexError] on an empty sequence. *)
Definition random_choice (seq : list string) : M string :=
  fun w =>
    match seq with
    | [] => (Raise IndexError, w)
    | x :: _ =>
        (Ret (nth (entropy w (drawn w) mod List.length seq)%nat seq x),
         {| session := session w; entropy := entropy w;
            drawn := S (drawn w);
            wall_clock := wall_clock w; clock_reads := clock_reads w;
            effects := effects w |})
    end.

(** [datetime.now()]. *)
Definition datetime_now : M datetime :=
  fun w =>
    (Ret (wall_clock w (clock_reads w)),
     {| session := session w; entropy := entropy w; drawn := drawn w;
        wall_clock := wall_clock w; clock_reads := S (clock_reads w);
        effects := effects w |}).

(** The list comprehension [[body for _ in range(n)]]. *)
Fixpoint comprehension {A : Type} (n : nat) (body : M A) : M (list A) :=
  match n with
  | O => ret []
  | S n' => x <- body ;; xs <- comprehension n' body ;; ret (x :: xs)
  end.

(* ------------------------------------------------------------------ *)
(** ** Game logic: drawing *)

Definition spin_once : M (list string) :=
  comprehension 3 (random_choice SYMBOLS).

(** The symbol the [i]-th raw draw of the random source selects. *)
Definition symbol_at (w : world) (i : nat) : string :=
  nth (entropy w i mod 7)%nat SYMBOLS "🍒".

(** The three symbols drawn after [skip] further draws. *)
Definition reels_after (skip : nat) (w : world) : list string :=
  let d := (drawn w + skip)%nat in
  [symbol_at w d; symbol_at w (S d); symbol_at w (S (S d))].

(* ------------------------------------------------------------------ *)
(** ** Spin functions *)

(** The animation loop of [do_spin]: [frames] throw-away draws, each shown,
    sounded and followed by a pause. *)
Fixpoint animation (frames : nat) (speed : spec_float) (play_sounds : bool)
  : M unit :=
  match frames with
  | O => ret tt
  | S frames' =>
      tmp <- comprehension 3 (random_choice SYMBOLS) ;;
      emit (Image tmp) ;;
      when play_sounds (emit (Audio SPIN_SOUND)) ;;
      emit (Sleep speed) ;;
      animation frames' speed play_sounds
  end.

(** The reels a spin with [frames] animation frames ends on: each frame
    consumes three draws before [spin_once] takes its own. *)
Definition final_reels (frames : Z) (w : world) : list string :=
  reels_after (3 * Z.to_nat frames) w.

(** [do_spin(bet_amount, frames, speed, play_sounds)]. *)
Definition do_spin (bet_amount : Z) (frames : Z) (speed : spec_float)
  (play_sounds : bool) : M unit :=
  s <- get_session ;;
  if bet_amount >? balance s then
    emit (Warning "Saldo tidak cukup untuk taruhan tersebut.")
  else
    modify (set_last_bet bet_amount) ;;
    modify (fun s => set_balance (balance s - bet_amount) s) ;;
    animation (Z.to_nat frames) speed play_sounds ;;
    final <- spin_once ;;
    modify (set_last_reels final) ;;
    emit (Image final) ;;
    ' (win, msg) <- lift (evaluate_spin final bet_amount) ;;
    when (win >? 0)
      (modify (fun s => set_balance (balance s + win) s) ;;
       when play_sounds (emit (Audio WIN_SOUND))) ;;
    t <- datetime_now ;;
    let now := strftime t in
    s <- get_session ;;
    bet_text <- lift (str bet_amount) ;;
    balance_text <- lift (str (balance s)) ;;
    let msg_full :=
      fstring [msg; " (Taruhan: "; bet_text;
               ") · Saldo sekarang: "; balance_text] in
    modify (set_message msg_full) ;;
    modify (fun s =>
              set_history
                ({| Entry.timestamp := now;
                    Entry.reels := String.concat " " final;
                    Entry.bet := bet_amount;
                    Entry.win := win;
                    Entry.balance_after := balance s;
                    Entry.message := msg |} :: history s) s).

(* ------------------------------------------------------------------ *)
(** ** The page script: widgets and handlers *)

(** What the widgets return in one run of the page: the number inputs, the
    sliders, the checkbox and, for each button, whether it was clicked. *)
Record inputs : Type := {
  bet : Z;
  spin_speed : spec_float;
  animation_frames : Z;
  auto_spin : bool;
  auto_count : Z;
  auto_delay : spec_float;
  spin_btn : bool;
  auto_btn : bool;
  reset_btn : bool;
  csv_btn : bool
}.

(** The body of [if st.button("Reset Saldo (kembali ke 1000)")]. *)
Definition reset_click : M unit :=
  modify (set_balance START_BALANCE) ;;
  modify (set_history []) ;;
  modify (set_message "Saldo direset ke 1000 coins.") ;;
  modify (set_last_reels ["-"; "-"; "-"]) ;;
  s <- get_session ;;
  emit (Image (last_reels s)).

(** [if spin_btn and not st.session_state.action_in_progress: ...]. *)
Definition spin_click (inp : inputs) : M unit :=
  s <- get_session ;;
  when (spin_btn inp && negb (action_in_progress s))
    (modify (set_action_in_progress true) ;;
     s <- get_session ;;
     (if bet inp <=? 0 then emit (Warning "Taruhan harus lebih dari 0.")
      else if bet inp >? balance s then emit (Warning "Saldo tidak cukup.")
      else do_spin (bet inp) (animation_frames inp) (spin_speed inp) true) ;;
     modify (set_action_in_progress false)).

(** The [for i in range(int(auto_count))] loop, with [n] iterations left and
    [spins_done] so far; it returns the final [spins_done]. *)
Fixpoint auto_loop (n : nat) (inp : inputs) (spins_done : Z) : M Z :=
  match n with
  | O => ret spins_done
  | S n' =>
      s <- get_session ;;
      if balance s <=? 0 then
        emit (Warning "Saldo habis. Auto-Spin berhenti.") ;;
        ret spins_done
      else
        do_spin (bet inp) (animation_frames inp) (spin_speed inp) true ;;
        let spins_done := spins_done + 1 in
        s <- get_session ;;
        if negb (auto_running s) then ret spins_done
        else
          emit (Sleep (auto_delay inp)) ;;
          auto_loop n' inp spins_done
  end.

(** [if st.session_state.auto_running: ...]. *)
Definition auto_run (inp : inputs) : M unit :=
  s <- get_session ;;
  when (auto_running s)
    (modify (set_action_in_progress true) ;;
     spins_done <- auto_loop (Z.to_nat (auto_count inp)) inp 0 ;;
     modify (set_auto_running false) ;;
     modify (set_action_in_progress false) ;;
     spins_text <- lift (str spins_done) ;;
     emit (Success (fstring ["Auto-Spin selesai ("; spins_text;
                             " putaran)."]))).

(** One run of the page script on an existing session: the statements that
    read or write the session, in source order.  The layout, titles and
    captions are not modelled, nor are the exceptions of the widgets and of
    the table display. *)
Definition script (inp : inputs) : M unit :=
  s <- get_session ;;
  emit (Image (last_reels s)) ;;
  emit (Info (message s)) ;;
  balance_text <- lift (str (balance s)) ;;
  emit (Markdown (fstring ["**Saldo:** <span class='accent'>"; balance_text;
                           " coins</span>"])) ;;
  when (reset_btn inp) reset_click ;;
  when (csv_btn inp) (s <- get_session ;; emit (Download (history s))) ;;
  spin_click inp ;;
  when (auto_btn inp)
    (modify (fun s => set_auto_running (negb (auto_running s)) s)) ;;
  auto_run inp ;;
  s <- get_session ;;
  match history s with
  | [] => emit (Info "Belum ada riwayat — mainkan dulu beberapa putaran!")
  | _ => emit (Dataframe (history s))
  end.

(** A user session: the page runs once per interaction; a run that raises
    stops there, and the session keeps what the run had written. *)
Fixpoint interact (runs : list inputs) (w : world) : world :=
  match runs with
  | [] => w
  | inp :: runs' => interact runs' (snd (script inp w))
  end.

(** A new session with a given random source and wall clock. *)
Definition new_world (rand : nat -> nat) (clock : nat -> datetime) : world :=
  {| session := init_state; entropy := rand; drawn := 0%nat;
     wall_clock := clock; clock_reads := 0%nat; effects := [] |}.

(* ------------------------------------------------------------------ *)
(** ** Notions used to state the properties *)

Definition is_digit (c : ascii) : bool :=
  ((48 <=? nat_of_ascii c) && (nat_of_ascii c <=? 57))%nat.

Definition is_upper (c : ascii) : bool :=
  ((65 <=? nat_of_ascii c) && (nat_of_ascii c <=? 90))%nat.

(** [has_shape pattern s]: [s] is [pattern] with one decimal digit for each
    capital letter and every other character kept, as in
    "YYYY-MM-DD HH:MM:SS". *)
Fixpoint has_shape (pattern s : string) : bool :=
  match pattern, s with
  | EmptyString, EmptyString => true
  | String p pattern', String c s' =>
      (if is_upper p then is_digit c else Ascii.eqb p c)
      && has_shape pattern' s'
  | _, _ => false
  end.

(** [spins bets w w']: starting in [w], one call of [do_spin] per bet of
    [bets], in order, each with a positive bet within the balance and each
    carried out to completion, ends in [w']. *)
Inductive spins : list Z -> world -> world -> Prop :=
| spins_nil (w : world) : spins [] w w
| spins_cons (b : Z) (bets : list Z) (frames : Z) (speed : spec_float)
    (ps : bool) (w w1 w' : world) :
    0 < b ->
    b <= balance (session w) ->
    do_spin b frames speed ps w = (Ret tt, w1) ->
    spins bets w1 w' ->
    spins (b :: bets) w w'.

(** [auto_spins inp k w w']: the first [k] iterations of the auto-spin loop
    started in [w] each find a positive balance that covers the bet, carry
    the spin out, find the run not stopped and pause; [w'] is the world
    after the [k]-th pause. *)
Inductive auto_spins (inp : inputs) : nat -> world -> world -> Prop :=
| auto_spins_O (w : world) : auto_spins inp O w w
| auto_spins_S (k : nat) (w w1 w' : world) :
    0 < balance (session w) ->
    bet inp <= balance (session w) ->
    do_spin (bet inp) (animation_frames inp) (spin_speed inp) true w
    = (Ret tt, w1) ->
    auto_running (session w1) = true ->
    auto_spins inp k (snd (emit (Sleep (auto_delay inp)) w1)) w' ->
    auto_spins inp (S k) w w'.

(** [keeps I m]: running [m] in a session that satisfies [I] leaves a
    session that satisfies [I], whether [m] completes or raises. *)
Definition keeps (I : session_state -> Prop) {A : Type} (m : M A) : Prop :=
  forall w : world, I (session w) -> I (session (snd (m w))).

(** [keeps_done I m]: if [m], run in a session that satisfies [I], runs to
    its end, it leaves a session that satisfies [I]. *)
Definition keeps_done (I : session_state -> Prop) {A : Type} (m : M A)
  : Prop :=
  forall (w w' : world) (a : A),
    I (session w) -> m w = (Ret a, w') -> I (session w').

Definition nonneg_balance (s : session_state) : Prop := 0 <= balance s.

(** What [n] iterations of the auto-spin loop that only warn and pause add
    to the effects. *)
Definition warned (inp : inputs) (n : nat) (fx : list effect) : list effect :=
  Nat.iter n
    (fun fx => Sleep (auto_delay inp)
                 :: Warning "Saldo tidak cukup untuk taruhan tersebut."
                 :: fx) fx.

(** [completes runs w]: each of the page runs [runs], started in [w] one
    after the other, runs to its end. *)
Fixpoint completes (runs : list inputs) (w : world) : bool :=
  match runs with
  | [] => true
  | inp :: runs' =>
      match script inp w with
      | (Ret _, w') => completes runs' w'
      | (Raise _, _) => false
      end
  end.

(** The most one page run can add to the balance: 49 times the bet for
    each spin it can make, one for the spin button and [auto_count] for the
    auto-spin loop. *)
Definition stake (inp : inputs) : Z :=
  49 * bet inp * (1 + Z.max 0 (auto_count inp)).

(** The stakes of a list of page runs, added up. *)
Definition budget (runs : list inputs) : Z :=
  fold_right (fun inp acc => stake inp + acc) 0 runs.

(** The two flags of the session. *)
Definition flags (s : session_state) : bool * bool :=
  (auto_running s, action_in_progress s).

(** The balance a list of history rows, newest first, closes on: the
    [balance_after] of the newest row, or [start] when there is none. *)
Definition closing (start : Z) (rows : list Entry.t) : Z :=
  match rows with
  | [] => start
  | e :: _ => Entry.balance_after e
  end.

(** [audit start rows]: every row has a positive bet and a payout that is
    not negative, and its [balance_after] is the balance the older rows
    close on, minus its bet, plus its payout. *)
Fixpoint audit (start : Z) (rows : list Entry.t) : bool :=
  match rows with
  | [] => true
  | e :: older =>
      (Entry.balance_after e
       =? closing start older - Entry.bet e + Entry.win e)
      && (0 <? Entry.bet e) && (0 <=? Entry.win e)
      && audit start older
  end.

(** The payouts of the rows minus their bets. *)
Definition net (rows : list Entry.t) : Z :=
  fold_right (fun e acc => Entry.win e - Entry.bet e + acc) 0 rows.

(** The history accounts for the balance. *)
Definition ledger (s : session_state) : Prop :=
  audit START_BALANCE (history s) = true
  /\ balance s = closing START_BALANCE (history s).

(** [emits P m]: whatever [m] shows or does is added to the effects that
    were there, and every effect it adds satisfies [P]. *)
Definition emits (P : effect -> Prop) {A : Type} (m : M A) : Prop :=
  forall w : world,
    exists new : list effect,
      effects (snd (m w)) = new ++ effects w /\ Forall P new.

(** An effect that is not an [st.info] banner, or is the banner of the
    empty history. *)
Definition no_result_banner (e : effect) : Prop :=
  match e with
  | Info text => text = "Belum ada riwayat — mainkan dulu beberapa putaran!"
  | _ => True
  end.

(** An [img_placeholder.image] call shows three reels. *)
Definition shows_three (e : effect) : Prop :=
  match e with
  | Image reels => List.length reels = 3%nat
  | _ => True
  end.

(** What every effect added by a page run satisfies. *)
Definition well_shown (e : effect) : Prop :=
  no_result_banner e /\ shows_three e.

(** The horizontal extent of each box drawn, in order. *)
Fixpoint boxes (l : list shape) : list (Z * Z) :=
  match l with
  | [] => []
  | RoundedRectangle x0 _ x1 _ _ _ :: l' => (x0, x1) :: boxes l'
  | _ :: l' => boxes l'
  end.

(* ------------------------------------------------------------------ *)
(** ** Sample sessions *)

Definition sample_clock : nat -> datetime :=
  fun _ => {| year := 2024; month := 3; day := 9; hour := 7; minute := 5;
              second := 0 |}.

(** A new session whose successive draws select successive symbols, so
    that every spin stops on three distinct symbols. *)
Definition sample_world : world := new_world (fun i => i) sample_clock.

(** A new session whose reels, without animation, stop on two cherries and
    a bell. *)
Definition pair_world : world :=
  new_world (fun i => Nat.div i 2) sample_clock.

(** The session of [pair_world] with a balance of 2^1025 and auto-spin
    running. *)
Definition rich_world : world :=
  with_session (set_auto_running true (set_balance (2 ^ 1025) init_state))
    pair_world.

(** The session of [sample_world] with a balance of 10^4300 + 1. *)
Definition vast_world : world :=
  with_session (set_balance (str_limit + 1) init_state) sample_world.

(** The session of [sample_world] with a balance of 20 and auto-spin
    running. *)
Definition poor_world : world :=
  with_session (set_auto_running true (set_balance 20 init_state))
    sample_world.

(** The widgets when the spin button was clicked with bet [b]. *)
Definition spin_inputs (b : Z) : inputs :=
  {| bet := b; spin_speed := float_1_5; animation_frames := 9;
     auto_spin := false; auto_count := 10; auto_delay := float_1_5;
     spin_btn := true; auto_btn := false; reset_btn := false;
     csv_btn := false |}.

(** The widgets of an auto-spin run of [count] spins with bet [b] and no
    animation. *)
Definition auto_inputs (b count : Z) : inputs :=
  {| bet := b; spin_speed := float_1_5; animation_frames := 0;
     auto_spin := true; auto_count := count; auto_delay := float_1_5;
     spin_btn := false; auto_btn := false; reset_btn := false;
     csv_btn := false |}.

(** The world after one spin of [b] with [frames] animation frames. *)
Definition after_spin (b frames : Z) (w : world) : world :=
  snd (do_spin b frames float_1_5 true w).

(** The world after one full iteration of the auto-spin loop. *)
Definition after_auto_step (inp : inputs) (w : world) : world :=
  snd (emit (Sleep (auto_delay inp))
         (snd (do_spin (bet inp) (animation_frames inp) (spin_speed inp)
                 true w))).

(* ------------------------------------------------------------------ *)
(** * Properties *)

Arguments fstring : simpl never.
Arguments str : simpl never.
Arguments strftime : simpl never.
Arguments evaluate_spin : simpl never.
Arguments String.concat : simpl never.
Arguments symbol_at : simpl never.

(* ------------------------------------------------------------------ *)
(** ** Printing integers *)

Lemma str_limit_eq : str_limit = 10 ^ 4300.
Proof. vm_compute. reflexivity. Qed.

(** Every integer a double can hold is printed. *)
Lemma str_limit_above_doubles : 2 ^ 1024 < str_limit.
Proof. vm_compute. reflexivity. Qed.

Opaque str_limit.

Lemma str_Ret (n : Z) : Z.abs n < str_limit -> str n = Ret (decimal n).
Proof.
  intros H. unfold str. destruct (Z.ltb_spec (Z.abs n) str_limit);
    [reflexivity | lia].
Qed.

Lemma str_Raise (n : Z) : str_limit <= Z.abs n -> str n = Raise ValueError.
Proof.
  intros H. unfold str. destruct (Z.ltb_spec (Z.abs n) str_limit);
    [lia | reflexivity].
Qed.

Lemma str_cases (n : Z) :
  (Z.abs n < str_limit /\ str n = Ret (decimal n))
  \/ (str_limit <= Z.abs n /\ str n = Raise ValueError).
Proof.
  destruct (Z.lt_ge_cases (Z.abs n) str_limit) as [H|H].
  - left. split; [exact H | apply str_Ret; exact H].
  - right. split; [exact H | apply str_Raise; exact H].
Qed.

Lemma str_inv (n : Z) (text : string) :
  str n = Ret text -> Z.abs n < str_limit /\ text = decimal n.
Proof.
  destruct (str_cases n) as [[H ->]|[H ->]]; [|discriminate].
  intros E. injection E as <-. split; [exact H | reflexivity].
Qed.

Lemma str_raises (n : Z) (e : exn) : str n = Raise e -> e = ValueError.
Proof.
  destruct (str_cases n) as [[_ ->]|[_ ->]]; congruence.
Qed.

Lemma res_bind_Ret (A B : Type) (r : res A) (k : A -> res B) (b : B) :
  res_bind r k = Ret b -> exists a : A, r = Ret a /\ k a = Ret b.
Proof.
  destruct r as [a|e]; [|discriminate].
  intros H. exists a. split; [reflexivity | exact H].
Qed.

(* ------------------------------------------------------------------ *)
(** ** The two-of-a-kind payout in double precision *)

Lemma Zdigits2_log2 (p : positive) : Zpos (digits2_pos p) = Z.log2 (Zpos p) + 1.
Proof.
  destruct p as [p|p|]; simpl; try reflexivity.
  all: induction p as [p IH|p IH|]; simpl in *; lia.
Qed.

Lemma shr_1_double (m : Z) :
  shr_1 {| shr_m := 2 * m; shr_r := false; shr_s := false |}
  = {| shr_m := m; shr_r := false; shr_s := false |}.
Proof. destruct m; reflexivity. Qed.

Lemma pow2_xO (p : positive) : 2 ^ Zpos p~0 = 2 ^ Zpos p * 2 ^ Zpos p.
Proof.
  replace (Zpos p~0) with (Zpos p + Zpos p) by lia.
  apply Z.pow_add_r; lia.
Qed.

Lemma pow2_xI (p : positive) : 2 ^ Zpos p~1 = 2 * (2 ^ Zpos p * 2 ^ Zpos p).
Proof.
  replace (Zpos p~1) with (1 + (Zpos p + Zpos p)) by lia.
  rewrite Z.pow_add_r, Z.pow_1_r, Z.pow_add_r by lia. reflexivity.
Qed.

Lemma iter_shr_1_exact (p : positive) : forall m : Z,
  iter_pos shr_1 p {| shr_m := m * 2 ^ Zpos p; shr_r := false; shr_s := false |}
  = {| shr_m := m; shr_r := false; shr_s := false |}.
Proof.
  induction p as [p IH|p IH|]; intros m; cbn [iter_pos].
  - replace (m * 2 ^ Zpos p~1) with (2 * (m * 2 ^ Zpos p * 2 ^ Zpos p))
      by (rewrite pow2_xI; ring).
    rewrite shr_1_double, IH, IH. reflexivity.
  - replace (m * 2 ^ Zpos p~0) with (m * 2 ^ Zpos p * 2 ^ Zpos p)
      by (rewrite pow2_xO; ring).
    rewrite IH, IH. reflexivity.
  - rewrite Z.pow_1_r, Z.mul_comm. apply shr_1_double.
Qed.

(** Rounding a mantissa that already fits: [k] has exactly [prec] digits and
    the [n] low bits shifted out are zero. *)
Lemma binary_round_aux_exact (k : positive) (n e : Z) :
  Zpos (digits2_pos k) = prec ->
  0 <= n ->
  emin prec emax <= e + n <= emax - prec ->
  binary_round_aux prec emax false (Zpos k * 2 ^ n) e loc_Exact
  = S754_finite false k (e + n).
Proof.
  intros Hk Hn He.
  assert (Hd : Zdigits2 (Zpos k * 2 ^ n) = prec + n).
  { assert (Hpos : 0 < Zpos k * 2 ^ n) by (apply Z.mul_pos_pos; [lia | apply Z.pow_pos_nonneg; lia]).
    destruct (Zpos k * 2 ^ n) as [|q|q] eqn:Hq; try lia.
    cbn [Zdigits2]. rewrite Zdigits2_log2, <- Hq, Z.log2_mul_pow2 by lia.
    rewrite Zdigits2_log2 in Hk. lia. }
  unfold binary_round_aux.
  assert (H1 : shr_fexp prec emax (Zpos k * 2 ^ n) e loc_Exact
               = ({| shr_m := Zpos k; shr_r := false; shr_s := false |}, e + n)).
  { unfold shr_fexp. rewrite Hd. unfold fexp.
    replace (Z.max (prec + n + e - prec) (emin prec emax) - e) with n by lia.
    cbn [shr_record_of_loc]. unfold shr.
    destruct n as [|p|p]; try lia.
    - rewrite Z.pow_0_r, Z.mul_1_r, Z.add_0_r. reflexivity.
    - rewrite iter_shr_1_exact. reflexivity. }
  rewrite H1. cbn [shr_m loc_of_shr_record round_nearest_even].
  assert (H2 : shr_fexp prec emax (Zpos k) (e + n) loc_Exact
               = ({| shr_m := Zpos k; shr_r := false; shr_s := false |}, e + n)).
  { unfold shr_fexp. cbn [Zdigits2]. rewrite Hk. unfold fexp.
    replace (Z.max (prec + (e + n) - prec) (emin prec emax) - (e + n)) with 0 by lia.
    reflexivity. }
  rewrite H2. cbn [shr_m].
  destruct (Z.leb_spec (e + n) (emax - prec)); [reflexivity | lia].
Qed.

Lemma Zpos_iter_xO (p q : positive) :
  Zpos (Pos.iter xO p q) = Zpos p * 2 ^ Zpos q.
Proof.
  induction q as [|q IH] using Pos.peano_ind.
  - cbn [Pos.iter]. rewrite Z.pow_1_r. lia.
  - rewrite Pos.iter_succ, Pos2Z.inj_succ, Z.pow_succ_r by lia.
    rewrite Pos2Z.inj_xO, IH. ring.
Qed.

(** An integer below 2^53 converts to the double of the same value: the
    mantissa is [n] shifted up to 53 digits. *)
Lemma float_of_int_exact (n : Z) :
  0 < n < 2 ^ 53 ->
  exists k : positive,
    float_of_int n = Ret (S754_finite false k (Z.log2 n - 52))
    /\ Zpos k = n * 2 ^ (52 - Z.log2 n)
    /\ Zpos (digits2_pos k) = prec.
Proof.
  intros [Hlo Hhi].
  assert (Hl : 0 <= Z.log2 n < 53).
  { split; [apply Z.log2_nonneg | apply Z.log2_lt_pow2; lia]. }
  destruct n as [|p|p]; try lia.
  unfold float_of_int, binary_normalize, binary_round, shl_align.
  rewrite Zdigits2_log2. unfold fexp.
  replace (Z.max (Z.log2 (Zpos p) + 1 + 0 - prec) (emin prec emax) - 0)
    with (Z.log2 (Zpos p) - 52) by (unfold prec, emin, emax; lia).
  destruct (Z.log2 (Zpos p) - 52) as [|q|q] eqn:Hq; try lia.
  - exists p.
    assert (Hk : Zpos (digits2_pos p) = prec)
      by (rewrite Zdigits2_log2; unfold prec; lia).
    replace (Zpos p) with (Zpos p * 2 ^ 0) at 1 by (rewrite Z.pow_0_r; lia).
    rewrite binary_round_aux_exact; try assumption; try lia;
      try (unfold emin, emax, prec; lia).
    repeat split; try assumption.
    replace (52 - Z.log2 (Zpos p)) with 0 by lia. rewrite Z.pow_0_r. lia.
  - exists (Pos.iter xO p q).
    assert (Hv : Zpos (Pos.iter xO p q) = Zpos p * 2 ^ (52 - Z.log2 (Zpos p))).
    { rewrite Zpos_iter_xO. f_equal. f_equal. lia. }
    assert (Hk : Zpos (digits2_pos (Pos.iter xO p q)) = prec).
    { rewrite Zdigits2_log2, Hv, Z.log2_mul_pow2 by lia. unfold prec. lia. }
    replace (Z.max (Z.log2 (Zpos p) + 1 + 0 - prec) (emin prec emax))
      with (Zneg q) by (unfold prec, emin, emax; lia).
    replace (Zpos (Pos.iter xO p q)) with (Zpos (Pos.iter xO p q) * 2 ^ 0) at 1
      by (rewrite Z.pow_0_r; lia).
    rewrite binary_round_aux_exact; try assumption; try lia;
      try (unfold emin, emax, prec; lia).
    rewrite Z.add_0_r. repeat split; assumption.
Qed.

(** [int(bet * 1.5)] is exact while [3 * bet] fits the 53-bit mantissa. *)
Lemma pair_payout_exact (bet : Z) :
  0 < bet -> 3 * bet < 2 ^ 53 ->
  pair_win bet = Ret (3 * bet / 2).
Proof.
  intros Hpos Hfit.
  destruct (float_of_int_exact bet) as (k & Hf & Hv & Hk); [lia|].
  unfold pair_win, int_mul_float. rewrite Hf. cbn [res_bind].
  unfold float_1_5. cbn [SFmul xorb].
  set (l := Z.log2 bet) in *. set (s := Z.log2 (3 * bet)).
  assert (Hl : 0 <= l) by apply Z.log2_nonneg.
  assert (Hs : l <= s < 53).
  { split; [apply Z.log2_le_mono; lia | apply Z.log2_lt_pow2; lia]. }
  assert (Hk' : 0 < 3 * bet * 2 ^ (52 - s))
    by (apply Z.mul_pos_pos; [lia | apply Z.pow_pos_nonneg; lia]).
  destruct (3 * bet * 2 ^ (52 - s)) as [|k'|k'] eqn:Ek'; try lia.
  assert (Hd' : Zpos (digits2_pos k') = prec).
  { rewrite Zdigits2_log2, <- Ek', Z.log2_mul_pow2 by lia.
    fold s. unfold prec. lia. }
  assert (Hprod : Zpos (k * 6755399441055744) = Zpos k' * 2 ^ (51 - l + s)).
  { rewrite Pos2Z.inj_mul, Hv, <- Ek'.
    replace (Zpos 6755399441055744) with (3 * 2 ^ 51) by reflexivity.
    replace (bet * 2 ^ (52 - l) * (3 * 2 ^ 51))
      with (3 * bet * (2 ^ (52 - l) * 2 ^ 51)) by ring.
    rewrite <- (Z.mul_assoc (3 * bet)), <- !Z.pow_add_r by lia.
    f_equal. f_equal. lia. }
  rewrite Hprod, binary_round_aux_exact;
    try assumption; try lia; try (unfold emin, emax, prec; lia).
  replace (l - 52 + -52 + (51 - l + s)) with (s - 53) by lia.
  cbn [int_of_float].
  destruct (s - 53) as [|q|q] eqn:Eq; try lia.
  f_equal. rewrite <- Ek'.
  replace (- Zneg q) with (1 + (52 - s)) by lia.
  rewrite Z.pow_add_r, Z.pow_1_r by lia.
  apply Z.div_mul_cancel_r; [lia|].
  apply Z.pow_nonzero; lia.
Qed.

(** *** Signs of the payout *)

Lemma binary_round_aux_sign (sx : bool) (mx ex : Z) (lx : location) :
  match binary_round_aux prec emax sx mx ex lx with
  | S754_zero s | S754_infinity s | S754_finite s _ _ => s = sx
  | S754_nan => True
  end.
Proof.
  unfold binary_round_aux.
  destruct (shr_fexp prec emax mx ex lx) as [mrs' e'].
  destruct (shr_fexp prec emax _ e' loc_Exact) as [mrs'' e''].
  destruct (shr_m mrs''); try exact I; try reflexivity.
  destruct (e'' <=? emax - prec); reflexivity.
Qed.

Lemma int_of_float_nonneg (m : positive) (e w : Z) :
  int_of_float (S754_finite false m e) = Ret w -> 0 <= w.
Proof.
  intros H.
  assert (Hw : w = match e with
                   | Z0 => Zpos m
                   | Zpos _ => Zpos m * 2 ^ e
                   | Zneg _ => Zpos m / 2 ^ (- e)
                   end) by (cbn [int_of_float] in H; congruence).
  rewrite Hw. clear H Hw.
  destruct e as [|p|p].
  - lia.
  - apply Z.mul_nonneg_nonneg; [lia | apply Z.pow_nonneg; lia].
  - apply Z.div_pos; [lia | apply Z.pow_pos_nonneg; lia].
Qed.

Lemma pair_payout_nonneg (b w : Z) :
  0 <= b ->
  pair_win b = Ret w -> 0 <= w.
Proof.
  intros Hb. unfold pair_win, int_mul_float, float_of_int, binary_normalize.
  destruct b as [|p|p]; try lia.
  - cbn. intros H. injection H as <-. lia.
  - unfold binary_round.
    destruct (shl_align p 0 _) as [mz ez].
    pose proof (binary_round_aux_sign false (Zpos mz) ez loc_Exact) as Hs.
    destruct (binary_round_aux prec emax false (Zpos mz) ez loc_Exact)
      as [s|s| |s m e]; cbn [res_bind]; try discriminate.
    + cbn. intros H. injection H as <-. lia.
    + subst s. unfold float_1_5. cbn [SFmul xorb].
      pose proof (binary_round_aux_sign false
                    (Zpos (m * 6755399441055744)) (e + -52) loc_Exact) as Hs.
      destruct (binary_round_aux prec emax false _ (e + -52) loc_Exact)
        as [s|s| |s m' e']; try discriminate.
      * cbn. intros H. injection H as <-. lia.
      * subst s. apply int_of_float_nonneg.
Qed.

Lemma dict_get_PAYOUT_TABLE_nonneg (sym : string) :
  0 <= dict_get PAYOUT_TABLE sym 0.
Proof.
  unfold PAYOUT_TABLE. cbn [dict_get].
  repeat match goal with
         | |- context [if ?c then _ else _] => destruct c
         end; lia.
Qed.

(** A non-negative bet never wins a negative amount. *)
Lemma evaluate_spin_nonneg (reels : list string) (b w : Z) (msg : string) :
  0 <= b -> evaluate_spin reels b = Ret (w, msg) -> 0 <= w.
Proof.
  intros Hb. unfold evaluate_spin.
  destruct reels as [|r0 [|r1 [|r2 rest]]]; try discriminate.
  destruct (String.eqb r0 r1 && String.eqb r1 r2).
  - destruct (str _) as [text|e]; cbn [res_bind]; try discriminate.
    intros H. injection H as <- _.
    apply Z.mul_nonneg_nonneg; [lia | apply dict_get_PAYOUT_TABLE_nonneg].
  - destruct (String.eqb r0 r1 || String.eqb r0 r2 || String.eqb r1 r2).
    + destruct (pair_win b) as [v|e] eqn:Hv;
        cbn [res_bind]; try discriminate.
      destruct (str v) as [text|e]; cbn [res_bind]; try discriminate.
      intros H. injection H as <- _. eapply pair_payout_nonneg; eassumption.
    + intros H. injection H as <- _. lia.
Qed.

Lemma dict_get_PAYOUT_TABLE_le (sym : string) :
  dict_get PAYOUT_TABLE sym 0 <= 50.
Proof.
  unfold PAYOUT_TABLE. cbn [dict_get].
  repeat match goal with
         | |- context [if ?c then _ else _] => destruct c
         end; lia.
Qed.

(* ------------------------------------------------------------------ *)
(** ** Payout *)




(* ------------------------------------------------------------------ *)
(** ** Drawing and spinning *)


Lemma comprehension_3_choices (w : world) :
  comprehension 3 (random_choice SYMBOLS) w
  = (Ret (reels_after 0 w),
     {| session := session w; entropy := entropy w;
        drawn := S (S (S (drawn w)));
        wall_clock := wall_clock w; clock_reads := clock_reads w;
        effects := effects w |}).
Proof.
  unfold reels_after. rewrite Nat.add_0_r. reflexivity.
Qed.

Lemma reels_after_eq (k k' : nat) (w w' : world) :
  entropy w' = entropy w -> (drawn w' + k' = drawn w + k)%nat ->
  reels_after k' w' = reels_after k w.
Proof.
  intros He Hd. unfold reels_after, symbol_at. rewrite He, Hd. reflexivity.
Qed.

(** The animation only consumes draws and shows frames. *)
Lemma animation_spec (n : nat) (speed : spec_float) (ps : bool) :
  forall w : world,
  exists w' : world,
    animation n speed ps w = (Ret tt, w')
    /\ session w' = session w
    /\ entropy w' = entropy w
    /\ drawn w' = (drawn w + 3 * n)%nat
    /\ wall_clock w' = wall_clock w
    /\ clock_reads w' = clock_reads w.
Proof.
  induction n as [|n IH]; intros w.
  - exists w. cbn. repeat split; lia.
  - cbn [animation]. unfold bind at 1. rewrite comprehension_3_choices.
    destruct ps; cbn -[animation reels_after Nat.mul];
      match goal with
      | |- context [animation _ _ _ ?w1] =>
          destruct (IH w1) as (w' & Ha & Hs & He & Hd & Hc & Hr)
      end;
      exists w'; rewrite Ha; cbn in *; repeat split;
      try assumption; lia.
Qed.

(** *** One spin *)

(** A bet above the balance: [do_spin] only warns. *)
Lemma do_spin_rejected (b frames : Z) (speed : spec_float) (ps : bool)
  (w : world) :
  b > balance (session w) ->
  do_spin b frames speed ps w
  = emit (Warning "Saldo tidak cukup untuk taruhan tersebut.") w.
Proof.
  intros Hb. unfold do_spin, bind, get_session.
  destruct (Z.gtb_spec b (balance (session w))); [reflexivity | lia].
Qed.

(** A bet within the balance: the spin is carried out.  The world it leaves
    is given field by field, for the three ways the spin can end: the
    payout computation raises, the message cannot be formatted, or the spin
    completes. *)
Lemma do_spin_accepted (b frames : Z) (speed : spec_float) (ps : bool)
  (w : world) :
  b <= balance (session w) ->
  let r := do_spin b frames speed ps w in
  match evaluate_spin (final_reels frames w) b with
  | Ret (win, msg) =>
      let after := balance (session w) - b + (if win >? 0 then win else 0) in
      balance (session (snd r)) = after
      /\ clock_reads (snd r) = S (clock_reads w)
      /\ match str b, str after with
         | Ret bet_text, Ret balance_text =>
             fst r = Ret tt
             /\ history (session (snd r))
                = {| Entry.timestamp :=
                       strftime (wall_clock w (clock_reads w));
                     Entry.reels := String.concat " " (final_reels frames w);
                     Entry.bet := b;
                     Entry.win := win;
                     Entry.balance_after := after;
                     Entry.message := msg |} :: history (session w)
             /\ message (session (snd r))
                = fstring [msg; " (Taruhan: "; bet_text;
                           ") · Saldo sekarang: "; balance_text]
         | _, _ =>
             fst r = Raise ValueError
             /\ history (session (snd r)) = history (session w)
             /\ message (session (snd r)) = message (session w)
         end
  | Raise e =>
      fst r = Raise e
      /\ balance (session (snd r)) = balance (session w) - b
      /\ clock_reads (snd r) = clock_reads w
      /\ history (session (snd r)) = history (session w)
      /\ message (session (snd r)) = message (session w)
  end
  /\ last_reels (session (snd r)) = final_reels frames w
  /\ last_bet (session (snd r)) = b
  /\ auto_running (session (snd r)) = auto_running (session w)
  /\ action_in_progress (session (snd r)) = action_in_progress (session w)
  /\ entropy (snd r) = entropy w
  /\ wall_clock (snd r) = wall_clock w
  /\ drawn (snd r) = (drawn w + 3 * Z.to_nat frames + 3)%nat.
Proof.
  intros Hb r. subst r.
  remember (do_spin b frames speed ps w) as r eqn:Er.
  unfold do_spin, bind at 1, get_session in Er.
  destruct (Z.gtb_spec b (balance (session w))) as [Hgt|_]; [lia|].
  unfold bind at 1 in Er. unfold modify at 1 in Er.
  unfold bind at 1 in Er. unfold modify at 1 in Er.
  unfold bind at 1 in Er.
  match type of Er with
  | context [animation _ speed ps ?w1] =>
      destruct (animation_spec (Z.to_nat frames) speed ps w1)
        as (w2 & Ha & Hs & He & Hd & Hc & Hr)
  end.
  rewrite Ha in Er. cbn in Hs, He, Hd, Hc, Hr.
  unfold bind at 1 in Er. unfold spin_once in Er.
  rewrite comprehension_3_choices in Er.
  assert (Hf : reels_after 0 w2 = final_reels frames w).
  { unfold final_reels. apply reels_after_eq; [assumption | lia]. }
  rewrite Hf in Er.
  unfold bind at 1 in Er. unfold modify at 1 in Er.
  unfold bind at 1 in Er. unfold emit at 1 in Er.
  unfold bind at 1 in Er. unfold lift at 1 in Er.
  destruct (evaluate_spin (final_reels frames w) b) as [[win msg]|e].
  - cbv zeta.
    destruct (win >? 0) eqn:Hw; destruct ps;
      cbn -[final_reels Nat.mul] in Er; rewrite ?Hw in Er;
      cbn -[final_reels Nat.mul] in Er; rewrite ?Hs, ?Hc, ?Hr in Er;
      cbn -[final_reels Nat.mul] in Er.
    all: rewrite ?Z.add_0_r.
    all: destruct (str b) as [bet_text|eb] eqn:Eb;
      [|apply str_raises in Eb; subst eb].
    all: match type of Er with
         | context [str ?n] =>
             destruct (str n) as [balance_text|ea] eqn:Ea;
             [|apply str_raises in Ea; subst ea]
         | _ => idtac
         end.
    all: cbn -[final_reels Nat.mul] in Er; subst r;
      cbn -[final_reels Nat.mul];
      repeat split; try reflexivity; try assumption; try lia.
  - cbn -[final_reels Nat.mul] in Er; rewrite ?Hs in Er;
      cbn -[final_reels Nat.mul] in Er; subst r;
      cbn -[final_reels Nat.mul];
      repeat split; try reflexivity; try assumption; lia.
Qed.

(** What an accepted spin that completes has done. *)
Lemma do_spin_Ret (b frames : Z) (speed : spec_float) (ps : bool)
  (w w' : world) :
  b <= balance (session w) ->
  do_spin b frames speed ps w = (Ret tt, w') ->
  exists (win : Z) (msg : string),
    evaluate_spin (final_reels frames w) b = Ret (win, msg)
    /\ balance (session w')
       = balance (session w) - b + (if win >? 0 then win else 0)
    /\ history (session w')
       = {| Entry.timestamp := strftime (wall_clock w (clock_reads w));
            Entry.reels := String.concat " " (final_reels frames w);
            Entry.bet := b;
            Entry.win := win;
            Entry.balance_after := balance (session w');
            Entry.message := msg |} :: history (session w)
    /\ message (session w')
       = fstring [msg; " (Taruhan: "; decimal b; ") · Saldo sekarang: ";
                  decimal (balance (session w'))]
    /\ Z.abs b < str_limit
    /\ Z.abs (balance (session w')) < str_limit.
Proof.
  intros Hle Hdo.
  destruct (do_spin_accepted b frames speed ps w Hle) as (Hres & _).
  cbv zeta in Hres. rewrite Hdo in Hres. cbn [fst snd] in Hres.
  destruct (evaluate_spin (final_reels frames w) b) as [[win msg]|e];
    [|destruct Hres as (Hr & _); discriminate Hr].
  destruct Hres as (Hbal & _ & Hres).
  exists win, msg. split; [reflexivity|]. split; [exact Hbal|].
  rewrite <- Hbal in Hres.
  destruct (str b) as [bet_text|eb] eqn:Eb;
    [|destruct Hres as (Hr & _); discriminate Hr].
  destruct (str (balance (session w'))) as [balance_text|ea] eqn:Ea;
    [|destruct Hres as (Hr & _); discriminate Hr].
  apply str_inv in Eb. destruct Eb as [Hb ->].
  apply str_inv in Ea. destruct Ea as [Ha ->].
  destruct Hres as (_ & Hhist & Hmsg).
  repeat split; assumption.
Qed.

(** An accepted spin completes when the payout is computed and the two
    numbers of its message can be printed. *)
Lemma do_spin_Ret_intro (b frames : Z) (speed : spec_float) (ps : bool)
  (w : world) (win : Z) (msg : string) :
  b <= balance (session w) ->
  evaluate_spin (final_reels frames w) b = Ret (win, msg) ->
  Z.abs b < str_limit ->
  Z.abs (balance (session w) - b + (if win >? 0 then win else 0))
  < str_limit ->
  exists w' : world, do_spin b frames speed ps w = (Ret tt, w').
Proof.
  intros Hle Hev Hb Ha.
  destruct (do_spin_accepted b frames speed ps w Hle) as (Hres & _).
  cbv zeta in Hres. rewrite Hev in Hres.
  rewrite (str_Ret _ Hb), (str_Ret _ Ha) in Hres.
  destruct Hres as (_ & _ & Hr & _).
  exists (snd (do_spin b frames speed ps w)).
  destruct (do_spin b frames speed ps w) as [r w']. cbn [fst snd] in *.
  rewrite Hr. reflexivity.
Qed.

(* ------------------------------------------------------------------ *)
(** ** Drawing *)

Lemma symbol_at_In (w : world) (i : nat) : In (symbol_at w i) SYMBOLS.
Proof.
  unfold symbol_at. apply nth_In.
  change (List.length SYMBOLS) with 7%nat.
  apply Nat.mod_upper_bound. discriminate.
Qed.

Lemma reels_after_symbols (k : nat) (w : world) :
  List.length (reels_after k w) = 3%nat
  /\ Forall (fun sym => In sym SYMBOLS) (reels_after k w).
Proof.
  split; [reflexivity|].
  unfold reels_after.
  repeat (apply Forall_cons; [apply symbol_at_In|]). apply Forall_nil.
Qed.

Lemma In_SYMBOLS_index (x : string) :
  In x SYMBOLS ->
  exists i : nat, (i < 7)%nat /\ nth (i mod 7) SYMBOLS "🍒" = x.
Proof.
  intros H. destruct (In_nth SYMBOLS x "🍒" H) as (i & Hi & Hn).
  change (List.length SYMBOLS) with 7%nat in Hi.
  exists i. split; [assumption|].
  rewrite Nat.mod_small by assumption. assumption.
Qed.

(** C8: whatever the random source holds, [spin_once] completes with
    exactly three symbols, each a member of [SYMBOLS] and each selected by
    its own draw, and it leaves the session alone; the positions are drawn
    with replacement: every triple of symbols is the outcome of some state
    of the random source. *)
Theorem spin_once_three_symbols (w : world) :
  (exists (a b c : string) (w' : world),
      spin_once w = (Ret [a; b; c], w')
      /\ In a SYMBOLS /\ In b SYMBOLS /\ In c SYMBOLS
      /\ a = symbol_at w (drawn w)
      /\ b = symbol_at w (S (drawn w))
      /\ c = symbol_at w (S (S (drawn w)))
      /\ session w' = session w
      /\ drawn w' = (drawn w + 3)%nat)
  /\ (forall x y z : string,
        In x SYMBOLS -> In y SYMBOLS -> In z SYMBOLS ->
        exists rand : nat -> nat,
          forall clock : nat -> datetime,
            fst (spin_once (new_world rand clock)) = Ret [x; y; z]).
Proof.
  split.
  - exists (symbol_at w (drawn w)), (symbol_at w (S (drawn w))),
      (symbol_at w (S (S (drawn w)))).
    eexists. split.
    + unfold spin_once. rewrite comprehension_3_choices.
      unfold reels_after. rewrite Nat.add_0_r. reflexivity.
    + cbn [session drawn].
      repeat split; try apply symbol_at_In. lia.
  - intros x y z Hx Hy Hz.
    destruct (In_SYMBOLS_index x Hx) as (i & _ & Hi).
    destruct (In_SYMBOLS_index y Hy) as (j & _ & Hj).
    destruct (In_SYMBOLS_index z Hz) as (k & _ & Hk).
    exists (fun n => match n with
                     | O => i
                     | S O => j
                     | S (S _) => k
                     end).
    intros clock. unfold spin_once. rewrite comprehension_3_choices.
    cbn [fst]. unfold reels_after, symbol_at. cbn [drawn new_world entropy Nat.add].
    rewrite Hi, Hj, Hk. reflexivity.
Qed.

(** A use of [spin_once_three_symbols]: a seven, a cherry and a seven can
    be drawn. *)
Lemma spin_once_three_symbols_witness :
  exists rand : nat -> nat,
    forall clock : nat -> datetime,
      fst (spin_once (new_world rand clock)) = Ret ["7️⃣"; "🍒"; "7️⃣"].
Proof.
  apply (proj2 (spin_once_three_symbols sample_world)).
  - cbn. tauto.
  - cbn. tauto.
  - cbn. tauto.
Defined.

(* ------------------------------------------------------------------ *)
(** ** Rejected bets *)

(** The spin handler on a bet that is not allowed. *)
Lemma spin_click_rejected (inp : inputs) (w : world) :
  bet inp <= 0 \/ bet inp > balance (session w) ->
  fst (spin_click inp w) = Ret tt
  /\ session (snd (spin_click inp w)) = session w
  /\ effects (snd (spin_click inp w))
     = (if spin_btn inp && negb (action_in_progress (session w))
        then [Warning (if bet inp <=? 0 then "Taruhan harus lebih dari 0."
                       else "Saldo tidak cukup.")]
        else []) ++ effects w
  /\ drawn (snd (spin_click inp w)) = drawn w
  /\ clock_reads (snd (spin_click inp w)) = clock_reads w.
Proof.
  intros Hbad.
  destruct w as [[bal lr lb msg hist ar aip] ent dr wc cr fx].
  cbn [session balance] in Hbad.
  unfold spin_click, bind, get_session, modify, when, emit, ret.
  destruct (spin_btn inp); destruct aip; cbn -[do_spin Z.gtb Z.leb];
    try (repeat split; reflexivity).
  destruct (Z.leb_spec (bet inp) 0) as [Hle|Hgt].
  - repeat split; reflexivity.
  - destruct (Z.gtb_spec (bet inp) bal) as [Hg|Hng]; [|lia].
    repeat split; reflexivity.
Qed.

(** C2: a bet that is zero, negative or above the balance is turned down
    by the spin handler: the handler completes without raising, the whole
    session (balance, history, last reels and the rest) is as before, no
    draw is made and the clock is not read, and all that is shown is one
    warning; [do_spin] itself turns down a bet above the balance in the
    same way.  Repeating the rejected request any number of times leaves
    the session unchanged. *)
Theorem rejected_bet_changes_nothing (inp : inputs) (w : world) :
  bet inp <= 0 \/ bet inp > balance (session w) ->
  (fst (spin_click inp w) = Ret tt
   /\ session (snd (spin_click inp w)) = session w
   /\ balance (session (snd (spin_click inp w))) = balance (session w)
   /\ history (session (snd (spin_click inp w))) = history (session w)
   /\ last_reels (session (snd (spin_click inp w)))
      = last_reels (session w)
   /\ effects (snd (spin_click inp w))
      = (if spin_btn inp && negb (action_in_progress (session w))
         then [Warning (if bet inp <=? 0 then "Taruhan harus lebih dari 0."
                        else "Saldo tidak cukup.")]
         else []) ++ effects w
   /\ drawn (snd (spin_click inp w)) = drawn w
   /\ clock_reads (snd (spin_click inp w)) = clock_reads w)
  /\ (forall n : nat,
        session (Nat.iter n (fun w' => snd (spin_click inp w')) w)
        = session w)
  /\ (forall (frames : Z) (speed : spec_float) (ps : bool),
        bet inp > balance (session w) ->
        fst (do_spin (bet inp) frames speed ps w) = Ret tt
        /\ session (snd (do_spin (bet inp) frames speed ps w)) = session w
        /\ effects (snd (do_spin (bet inp) frames speed ps w))
           = Warning "Saldo tidak cukup untuk taruhan tersebut."
               :: effects w).
Proof.
  intros Hbad.
  destruct (spin_click_rejected inp w Hbad) as (Hr & Hs & He & Hd & Hc).
  split; [|split].
  - rewrite Hs. repeat split; assumption.
  - induction n as [|n IH]; [reflexivity|].
    change (session (snd (spin_click inp
                            (Nat.iter n (fun w' => snd (spin_click inp w'))
                               w))) = session w).
    assert (Hbad' : bet inp <= 0
                    \/ bet inp > balance
                         (session (Nat.iter n
                                     (fun w' => snd (spin_click inp w')) w)))
      by (rewrite IH; exact Hbad).
    destruct (spin_click_rejected inp _ Hbad') as (_ & Hs' & _).
    rewrite Hs'. exact IH.
  - intros frames speed ps Hgt.
    rewrite do_spin_rejected by assumption. repeat split.
Qed.

(** A use of [rejected_bet_changes_nothing]: a bet of 0 on a new
    session. *)
Lemma rejected_bet_changes_nothing_witness :
  (bet (spin_inputs 0) <= 0
   \/ bet (spin_inputs 0) > balance (session sample_world))
  /\ session (snd (spin_click (spin_inputs 0) sample_world))
     = session sample_world.
Proof.
  assert (H : bet (spin_inputs 0) <= 0
              \/ bet (spin_inputs 0) > balance (session sample_world))
    by (left; cbn; lia).
  split; [exact H|].
  exact (proj1 (proj2 (proj1 (rejected_bet_changes_nothing
                                (spin_inputs 0) sample_world H)))).
Defined.

(* ------------------------------------------------------------------ *)
(** ** What one call of [do_spin] does to the session *)

(** The world [do_spin] leaves, in its three cases: the bet is turned down,
    the spin is carried out, or the spin raises, in the payout computation
    or in the formatting of its message. *)
Lemma do_spin_cases (b frames : Z) (speed : spec_float) (ps : bool)
  (w : world) :
  let r := do_spin b frames speed ps w in
  auto_running (session (snd r)) = auto_running (session w)
  /\ ((b > balance (session w)
       /\ fst r = Ret tt /\ session (snd r) = session w)
      \/ (b <= balance (session w)
          /\ fst r = Ret tt
          /\ balance (session w) - b <= balance (session (snd r))
          /\ exists e : Entry.t,
               history (session (snd r)) = e :: history (session w))
      \/ (b <= balance (session w)
          /\ (exists e : exn, fst r = Raise e)
          /\ balance (session w) - b <= balance (session (snd r))
          /\ history (session (snd r)) = history (session w))).
Proof.
  intros r. subst r.
  destruct (Z.gtb_spec b (balance (session w))) as [Hgt|Hle].
  - rewrite do_spin_rejected by lia. split; [reflexivity|].
    left. repeat split. lia.
  - destruct (do_spin_accepted b frames speed ps w Hle)
      as (Hres & _ & _ & Har & _).
    cbv zeta in Hres. split; [exact Har|]. right.
    destruct (evaluate_spin (final_reels frames w) b) as [[win msg]|e].
    + destruct Hres as (Hbal & _ & Hres).
      assert (Hge : balance (session w) - b
                    <= balance (session (snd (do_spin b frames speed ps w))))
        by (rewrite Hbal; destruct (Z.gtb_spec win 0); lia).
      destruct (str b) as [bet_text|eb];
        [destruct (str _) as [balance_text|ea]|].
      * destruct Hres as (Hr & Hhist & _). left.
        repeat split; try assumption. eexists. exact Hhist.
      * destruct Hres as (Hr & Hhist & _). right.
        repeat split; try assumption. exists ValueError. exact Hr.
      * destruct Hres as (Hr & Hhist & _). right.
        repeat split; try assumption. exists ValueError. exact Hr.
    + destruct Hres as (Hr & Hbal & _ & Hhist & _). right.
      repeat split; try assumption; [|lia]. exists e. exact Hr.
Qed.

(* ------------------------------------------------------------------ *)
(** ** The balance is never negative *)

Lemma keeps_ret (I : session_state -> Prop) (A : Type) (a : A) :
  keeps I (ret a).
Proof. intros w H. exact H. Qed.

Lemma keeps_bind (I : session_state -> Prop) (A B : Type) (m : M A)
  (k : A -> M B) :
  keeps I m -> (forall a : A, keeps I (k a)) -> keeps I (bind m k).
Proof.
  intros Hm Hk w H. unfold bind.
  specialize (Hm w H).
  destruct (m w) as [[a|e] w1]; cbn [snd] in *.
  - apply Hk. exact Hm.
  - exact Hm.
Qed.

Lemma keeps_get_session (I : session_state -> Prop) : keeps I get_session.
Proof. intros w H. exact H. Qed.

Lemma keeps_emit (I : session_state -> Prop) (e : effect) : keeps I (emit e).
Proof. intros w H. exact H. Qed.

Lemma keeps_lift (I : session_state -> Prop) (A : Type) (r : res A) :
  keeps I (lift r).
Proof. intros w H. exact H. Qed.

Lemma keeps_modify (I : session_state -> Prop)
  (f : session_state -> session_state) :
  (forall s : session_state, I s -> I (f s)) -> keeps I (modify f).
Proof. intros Hf w H. apply Hf. exact H. Qed.

Lemma keeps_when (I : session_state -> Prop) (c : bool) (m : M unit) :
  keeps I m -> keeps I (when c m).
Proof. intros Hm. destruct c; [exact Hm | apply keeps_ret]. Qed.

Lemma keeps_do_spin (b frames : Z) (speed : spec_float) (ps : bool) :
  keeps nonneg_balance (do_spin b frames speed ps).
Proof.
  intros w H. unfold nonneg_balance in *.
  destruct (do_spin_cases b frames speed ps w)
    as (_ & [(_ & _ & Hs)|[(Hle & _ & Hb & _)|(Hle & _ & Hb & _)]]).
  - rewrite Hs. exact H.
  - cbv zeta in Hb. lia.
  - cbv zeta in Hb. lia.
Qed.

Create HintDb keeps.
#[local] Hint Resolve keeps_ret keeps_get_session keeps_emit keeps_lift
  keeps_when keeps_do_spin : keeps.
#[local] Hint Extern 1 (keeps _ (bind _ _)) =>
  apply keeps_bind; [|intros] : keeps.
#[local] Hint Extern 1 (keeps _ (modify _)) =>
  apply keeps_modify; intros; unfold nonneg_balance in *; cbn; lia : keeps.
#[local] Hint Extern 1 (keeps _ (if _ then _ else _)) =>
  match goal with |- keeps _ (if ?c then _ else _) => destruct c end : keeps.
#[local] Hint Extern 1 (keeps _ (match history ?s with _ => _ end)) =>
  destruct (history s) : keeps.

Lemma keeps_auto_loop (inp : inputs) (n : nat) :
  forall spins_done : Z,
    keeps nonneg_balance (auto_loop n inp spins_done).
Proof.
  induction n as [|n IH]; intros spins_done; cbn [auto_loop];
    auto 20 with keeps.
Qed.

Lemma keeps_script (inp : inputs) : keeps nonneg_balance (script inp).
Proof.
  pose proof (keeps_auto_loop inp) as Hloop.
  unfold script, reset_click, spin_click, auto_run, START_BALANCE.
  auto 30 with keeps.
Qed.

(** C3: starting from a new session (balance 1000), after any sequence of
    page runs, with any inputs, random source and clock, the balance is
    not negative; [do_spin] turns down a bet above the balance and leaves
    the session as it was, and a call of [do_spin] with a bet within the
    balance leaves a balance that is not negative, even if it raises. *)
Theorem balance_never_negative :
  balance init_state = 1000
  /\ (forall (runs : list inputs) (rand : nat -> nat)
        (clock : nat -> datetime),
         0 <= balance (session (interact runs (new_world rand clock))))
  /\ (forall (w : world) (b frames : Z) (speed : spec_float) (ps : bool),
         b > balance (session w) ->
         fst (do_spin b frames speed ps w) = Ret tt
         /\ session (snd (do_spin b frames speed ps w)) = session w)
  /\ (forall (w : world) (b frames : Z) (speed : spec_float) (ps : bool),
         b <= balance (session w) ->
         0 <= balance (session (snd (do_spin b frames speed ps w)))).
Proof.
  split; [reflexivity|]. split; [|split].
  - intros runs rand clock.
    assert (H : forall w, nonneg_balance (session w) ->
                          nonneg_balance (session (interact runs w))).
    { induction runs as [|inp runs IH]; intros w Hw; [exact Hw|].
      cbn [interact]. apply IH. apply keeps_script. exact Hw. }
    apply H. unfold nonneg_balance.
    cbn [new_world session init_state balance]. unfold START_BALANCE. lia.
  - intros w b frames speed ps Hgt.
    rewrite do_spin_rejected by assumption. split; reflexivity.
  - intros w b frames speed ps Hle.
    destruct (do_spin_cases b frames speed ps w)
      as (_ & [(Hgt & _)|[(_ & _ & Hb & _)|(_ & _ & Hb & _)]]); lia.
Qed.

(** A use of [balance_never_negative]: betting the whole balance of a new
    session. *)
Lemma balance_never_negative_witness :
  1000 <= balance (session sample_world)
  /\ 0 <= balance (session (snd (do_spin 1000 9 float_1_5 true
                                   sample_world))).
Proof.
  assert (H : 1000 <= balance (session sample_world))
    by (vm_compute; discriminate).
  split; [exact H|].
  exact (proj2 (proj2 (proj2 balance_never_negative))
           sample_world 1000 9 float_1_5 true H).
Defined.

(* ------------------------------------------------------------------ *)
(** ** The record of a spin *)

Lemma is_digit_digit (d : nat) : is_digit (digit d) = true.
Proof.
  unfold is_digit, digit.
  assert (H : (d mod 10 < 10)%nat) by (apply Nat.mod_upper_bound; lia).
  rewrite nat_ascii_embedding by lia.
  apply andb_true_intro. split; apply Nat.leb_le; lia.
Qed.

Lemma strftime_shape (t : datetime) :
  has_shape "YYYY-MM-DD HH:MM:SS" (strftime t) = true.
Proof.
  unfold strftime, fstring, String.concat, pad4, pad2.
  cbn [append has_shape].
  rewrite !is_digit_digit. reflexivity.
Qed.

(** C5, as worded, fails on a balance too long to be printed: a spin with
    bet 1 on a balance of 10^4300 + 1 is accepted and the reels pay nothing;
    the balance is updated to 10^4300, a number of 4301 digits, the
    f-string of the result message raises [ValueError] on it, and no record
    is put in the history. *)
Lemma do_spin_unprintable_balance :
  0 < 1
  /\ 1 <= balance (session vast_world)
  /\ evaluate_spin (final_reels 0 vast_world) 1
     = Ret (0, "😞 No match — try again.")
  /\ fst (do_spin 1 0 float_1_5 true vast_world) = Raise ValueError
  /\ balance (session (snd (do_spin 1 0 float_1_5 true vast_world)))
     = balance (session vast_world) - 1 + 0
  /\ history (session (snd (do_spin 1 0 float_1_5 true vast_world)))
     = history (session vast_world).
Proof.
  split; [reflexivity|]. split; [vm_compute; discriminate|].
  split; [vm_compute; reflexivity|].
  split; [vm_compute; reflexivity|].
  split; vm_compute; reflexivity.
Qed.

(** C5, amended: a spin with bet [b], 0 < b <= balance, is carried out.
    When the reels drawn pay [win], the balance becomes the old one minus
    [b] plus [win]; if [b] and that balance have at most 4300 digits,
    [do_spin] completes and the history is the old one with one record in
    front: the clock reading in the form YYYY-MM-DD HH:MM:SS, the three
    symbols joined by spaces, [b], [win], the new balance and the payout
    message.  If one of the two numbers is longer, [do_spin] raises
    [ValueError] after the balance was updated and before the record is
    made.  The bet is taken before the payout is computed: when that
    computation raises, the balance is the old one minus [b]. *)
Theorem do_spin_settles (w : world) (b frames : Z) (speed : spec_float)
  (ps : bool) :
  0 < b -> b <= balance (session w) ->
  (forall (win : Z) (msg : string),
      evaluate_spin (final_reels frames w) b = Ret (win, msg) ->
      b < str_limit -> balance (session w) - b + win < str_limit ->
      exists w' : world,
        do_spin b frames speed ps w = (Ret tt, w')
        /\ balance (session w') = balance (session w) - b + win
        /\ history (session w')
           = {| Entry.timestamp := strftime (wall_clock w (clock_reads w));
                Entry.reels := String.concat " " (final_reels frames w);
                Entry.bet := b;
                Entry.win := win;
                Entry.balance_after := balance (session w) - b + win;
                Entry.message := msg |} :: history (session w))
  /\ (forall (win : Z) (msg : string),
        evaluate_spin (final_reels frames w) b = Ret (win, msg) ->
        str_limit <= b \/ str_limit <= balance (session w) - b + win ->
        fst (do_spin b frames speed ps w) = Raise ValueError
        /\ balance (session (snd (do_spin b frames speed ps w)))
           = balance (session w) - b + win
        /\ history (session (snd (do_spin b frames speed ps w)))
           = history (session w))
  /\ (forall e : exn,
        evaluate_spin (final_reels frames w) b = Raise e ->
        fst (do_spin b frames speed ps w) = Raise e
        /\ balance (session (snd (do_spin b frames speed ps w)))
           = balance (session w) - b
        /\ history (session (snd (do_spin b frames speed ps w)))
           = history (session w))
  /\ has_shape "YYYY-MM-DD HH:MM:SS"
       (strftime (wall_clock w (clock_reads w))) = true
  /\ (exists x y z : string,
        final_reels frames w = [x; y; z]
        /\ In x SYMBOLS /\ In y SYMBOLS /\ In z SYMBOLS
        /\ String.concat " " (final_reels frames w)
           = (x ++ " " ++ y ++ " " ++ z)%string).
Proof.
  intros Hpos Hle.
  destruct (do_spin_accepted b frames speed ps w Hle) as (Hres & _).
  cbv zeta in Hres.
  assert (Hwin : forall win msg,
             evaluate_spin (final_reels frames w) b = Ret (win, msg) ->
             (if win >? 0 then win else 0) = win).
  { intros win msg Hev.
    pose proof (evaluate_spin_nonneg (final_reels frames w) b win msg
                  ltac:(lia) Hev).
    destruct (Z.gtb_spec win 0); lia. }
  split; [|split; [|split; [|split]]].
  - intros win msg Hev Hb Ha. rewrite Hev in Hres.
    rewrite (Hwin win msg Hev) in Hres.
    pose proof (evaluate_spin_nonneg (final_reels frames w) b win msg
                  ltac:(lia) Hev).
    rewrite !str_Ret in Hres by lia.
    destruct Hres as (Hbal & _ & Hr & Hhist & _).
    exists (snd (do_spin b frames speed ps w)).
    split; [|split; assumption].
    destruct (do_spin b frames speed ps w) as [r w']. cbn [fst] in Hr.
    rewrite Hr. reflexivity.
  - intros win msg Hev Hlong. rewrite Hev in Hres.
    rewrite (Hwin win msg Hev) in Hres.
    destruct Hres as (Hbal & _ & Hres). split; [|split; [exact Hbal|]].
    + destruct Hlong as [Hb|Ha].
      * rewrite (str_Raise b) in Hres by lia. apply Hres.
      * rewrite (str_Raise (balance (session w) - b + win)) in Hres by lia.
        destruct (str b); apply Hres.
    + destruct Hlong as [Hb|Ha].
      * rewrite (str_Raise b) in Hres by lia. apply Hres.
      * rewrite (str_Raise (balance (session w) - b + win)) in Hres by lia.
        destruct (str b); apply Hres.
  - intros e Hev. rewrite Hev in Hres.
    destruct Hres as (Hr & Hbal & _ & Hhist & _). repeat split; assumption.
  - apply strftime_shape.
  - unfold final_reels, reels_after.
    do 3 eexists. split; [reflexivity|].
    repeat split; try apply symbol_at_In.
Qed.

(** A use of [do_spin_settles]: a bet of 10 on a new session whose reels
    stop on two cherries and a bell. *)
Lemma do_spin_settles_witness :
  (0 < 10 /\ 10 <= balance (session pair_world))
  /\ exists w' : world,
       do_spin 10 0 float_1_5 true pair_world = (Ret tt, w')
       /\ balance (session w') = balance (session pair_world) - 10 + 15.
Proof.
  assert (H1 : 0 < 10) by reflexivity.
  assert (H2 : 10 <= balance (session pair_world))
    by (vm_compute; discriminate).
  split; [split; assumption|].
  destruct (proj1 (do_spin_settles pair_world 10 0 float_1_5 true H1 H2) 15
              "🙂 Two of a kind — you win 15 coins.")
    as (w' & Hdo & Hbal & _).
  - vm_compute. reflexivity.
  - vm_compute. reflexivity.
  - vm_compute. reflexivity.
  - exists w'. split; assumption.
Defined.

(* ------------------------------------------------------------------ *)
(** ** The history *)

Lemma spins_history (bets : list Z) (w w' : world) :
  spins bets w w' ->
  exists new : list Entry.t,
    history (session w') = new ++ history (session w)
    /\ List.length new = List.length bets
    /\ map Entry.bet new = rev bets.
Proof.
  induction 1 as [w|b bets frames speed ps w w1 w' Hpos Hle Hdo Hrest IH].
  - exists []. repeat split.
  - destruct IH as (new & Hnew & Hlen & Hbets).
    destruct (do_spin_Ret b frames speed ps w w1 Hle Hdo)
      as (win & msg & _ & _ & Hhist & _).
    eexists (new ++ [_]).
    rewrite Hnew, Hhist, <- app_assoc. split; [reflexivity|].
    rewrite length_app, map_app, Hlen, Hbets. cbn.
    split; [lia | reflexivity].
Qed.

(* ------------------------------------------------------------------ *)
(** ** Spins that complete *)

(** On three reels and a positive bet, [evaluate_spin] returns if
    [int(bet * 1.5)] does and the payouts are short enough to be printed;
    the payout is then at most the larger of 50 times the bet and the pair
    payout. *)
Lemma evaluate_spin_returns (b v : Z) (k : nat) (w : world) :
  0 < b ->
  pair_win b = Ret v ->
  Z.max (50 * b) v < str_limit ->
  exists (win : Z) (msg : string),
    evaluate_spin (reels_after k w) b = Ret (win, msg)
    /\ 0 <= win <= Z.max (50 * b) v.
Proof.
  intros Hpos Hv Hlim.
  pose proof (pair_payout_nonneg b v ltac:(lia) Hv) as Hv0.
  unfold evaluate_spin, reels_after.
  destruct (String.eqb _ _ && String.eqb _ _).
  - match goal with
    | |- context [dict_get PAYOUT_TABLE ?sym 0] =>
        pose proof (dict_get_PAYOUT_TABLE_nonneg sym) as Hm0;
        pose proof (dict_get_PAYOUT_TABLE_le sym) as Hm1
    end.
    rewrite str_Ret by nia. do 2 eexists. split; [reflexivity | nia].
  - destruct (String.eqb _ _ || String.eqb _ _ || String.eqb _ _).
    + rewrite Hv. cbn [res_bind]. rewrite str_Ret by lia.
      do 2 eexists. split; [reflexivity | lia].
    + do 2 eexists. split; [reflexivity | lia].
Qed.

(** A spin with a positive bet within the balance completes if
    [int(bet * 1.5)] returns and the highest balance the spin can leave is
    short enough to be printed. *)
Lemma do_spin_completes (b v frames : Z) (speed : spec_float) (ps : bool)
  (w : world) :
  0 < b ->
  b <= balance (session w) ->
  pair_win b = Ret v ->
  balance (session w) - b + Z.max (50 * b) v < str_limit ->
  exists (w' : world) (e : Entry.t),
    do_spin b frames speed ps w = (Ret tt, w')
    /\ balance (session w) - b <= balance (session w')
       <= balance (session w) - b + Z.max (50 * b) v
    /\ history (session w') = e :: history (session w)
    /\ Entry.bet e = b
    /\ auto_running (session w') = auto_running (session w).
Proof.
  intros Hpos Hle Hv Hlim.
  destruct (evaluate_spin_returns b v (3 * Z.to_nat frames) w Hpos Hv
              ltac:(lia)) as (win & msg & Hev & Hwin).
  fold (final_reels frames w) in Hev.
  assert (Hw : (if win >? 0 then win else 0) = win)
    by (destruct (Z.gtb_spec win 0); lia).
  destruct (do_spin_Ret_intro b frames speed ps w win msg Hle Hev
              ltac:(lia) ltac:(rewrite Hw; lia)) as (w' & Hdo).
  destruct (do_spin_Ret b frames speed ps w w' Hle Hdo)
    as (win' & msg' & Hev' & Hbal & Hhist & _).
  rewrite Hev in Hev'. injection Hev' as <- <-. rewrite Hw in Hbal.
  destruct (do_spin_accepted b frames speed ps w Hle)
    as (_ & _ & _ & Har & _).
  cbv zeta in Har. rewrite Hdo in Har. cbn [snd] in Har.
  exists w'. eexists. split; [exact Hdo|].
  split; [lia|]. split; [exact Hhist|]. split; [reflexivity | exact Har].
Qed.

(* ------------------------------------------------------------------ *)
(** ** The auto-spin loop *)

Lemma auto_loop_S (n : nat) (inp : inputs) (sd : Z) (w : world) :
  auto_loop (S n) inp sd w
  = if balance (session w) <=? 0 then
      (Ret sd, snd (emit (Warning "Saldo habis. Auto-Spin berhenti.") w))
    else
      match do_spin (bet inp) (animation_frames inp) (spin_speed inp) true w
      with
      | (Ret _, w1) =>
          if negb (auto_running (session w1)) then (Ret (sd + 1), w1)
          else auto_loop n inp (sd + 1)
                 (snd (emit (Sleep (auto_delay inp)) w1))
      | (Raise e, w1) => (Raise e, w1)
      end.
Proof.
  cbn [auto_loop]. unfold bind at 1, get_session.
  destruct (balance (session w) <=? 0); [reflexivity|].
  unfold bind at 1.
  destruct (do_spin _ _ _ _ w) as [[[]|e] w1]; [|reflexivity].
  unfold bind at 1, get_session.
  destruct (negb (auto_running (session w1))); reflexivity.
Qed.

(** Iterations that spin compose with the rest of the loop. *)
Lemma auto_loop_after_spins (inp : inputs) (k : nat) (w w' : world) :
  auto_spins inp k w w' ->
  forall (m : nat) (sd : Z),
    auto_loop (k + m) inp sd w = auto_loop m inp (sd + Z.of_nat k) w'.
Proof.
  induction 1 as [w|k w w1 w' Hpos Hle Hdo Har Hrest IH]; intros m sd.
  - cbn [Nat.add Z.of_nat]. rewrite Z.add_0_r. reflexivity.
  - cbn [Nat.add]. rewrite auto_loop_S.
    destruct (Z.leb_spec (balance (session w)) 0); [lia|].
    rewrite Hdo, Har. cbn [negb]. rewrite IH.
    f_equal. lia.
Qed.

Lemma auto_spins_history (inp : inputs) (k : nat) (w w' : world) :
  auto_spins inp k w w' ->
  exists new : list Entry.t,
    history (session w') = new ++ history (session w)
    /\ List.length new = k.
Proof.
  induction 1 as [w|k w w1 w' Hpos Hle Hdo Har Hrest IH].
  - exists []. split; reflexivity.
  - destruct IH as (new & Hnew & Hlen).
    destruct (do_spin_cases (bet inp) (animation_frames inp)
                (spin_speed inp) true w) as (_ & Hcases).
    cbv zeta in Hcases. rewrite Hdo in Hcases. cbn [fst snd] in Hcases.
    destruct Hcases as [(Hgt & _)|[(_ & _ & _ & e & He)|(_ & (e & He) & _)]];
      [lia| |discriminate He].
    exists (new ++ [e]). cbn [emit snd session] in Hnew.
    rewrite Hnew, He, <- app_assoc, length_app, Hlen. cbn.
    split; [reflexivity | lia].
Qed.

(** If the balance covers [n] bets, and the highest balance [n] spins can
    reach is short enough to be printed, the first [n] iterations all
    spin. *)
Lemma auto_spins_funded (inp : inputs) (v : Z) :
  0 < bet inp -> pair_win (bet inp) = Ret v ->
  forall (n : nat) (w : world),
    Z.of_nat n * bet inp <= balance (session w) ->
    balance (session w)
    + Z.of_nat n * (Z.max (50 * bet inp) v - bet inp) < str_limit ->
    auto_running (session w) = true ->
    exists w' : world, auto_spins inp n w w'.
Proof.
  intros Hbet Hv. induction n as [|n IH]; intros w Hfund Hlim Har.
  - exists w. constructor.
  - assert (Hle : bet inp <= balance (session w)) by nia.
    assert (Hg : 0 <= Z.max (50 * bet inp) v - bet inp) by lia.
    destruct (do_spin_completes (bet inp) v (animation_frames inp)
                (spin_speed inp) true w Hbet Hle Hv ltac:(nia))
      as (w1 & e & Hdo & Hbal & _ & _ & Har1).
    destruct (IH (snd (emit (Sleep (auto_delay inp)) w1))) as (w' & Hrest).
    + cbn [emit snd session]. nia.
    + cbn [emit snd session]. nia.
    + cbn [emit snd session]. congruence.
    + exists w'. apply auto_spins_S with (w1 := w1); try assumption.
      * lia.
      * congruence.
Qed.

(** Each iteration adds at most one record and counts at most one spin. *)
Lemma auto_loop_bounded (inp : inputs) (n : nat) :
  forall (sd : Z) (w : world),
    (exists new : list Entry.t,
        history (session (snd (auto_loop n inp sd w)))
        = new ++ history (session w)
        /\ (List.length new <= n)%nat)
    /\ (forall sd' : Z,
          fst (auto_loop n inp sd w) = Ret sd' ->
          sd <= sd' <= sd + Z.of_nat n).
Proof.
  induction n as [|n IH]; intros sd w.
  - cbn. split; [exists []; split; [reflexivity | cbn; lia]|].
    intros sd' H. injection H as <-. lia.
  - rewrite auto_loop_S.
    destruct (balance (session w) <=? 0).
    { cbn. split; [exists []; split; [reflexivity | cbn; lia]|].
      intros sd' H. injection H as <-. lia. }
    destruct (do_spin_cases (bet inp) (animation_frames inp)
                (spin_speed inp) true w) as (_ & Hcases).
    cbv zeta in Hcases.
    destruct (do_spin _ _ _ _ w) as [[[]|e] w1]; cbn [fst snd] in Hcases.
    + assert (Hone : exists new1 : list Entry.t,
                 history (session w1) = new1 ++ history (session w)
                 /\ (List.length new1 <= 1)%nat).
      { destruct Hcases
          as [(_ & _ & Hs)|[(_ & _ & _ & e & He)|(_ & (e & He) & _)]].
        - exists []. rewrite Hs. split; [reflexivity | cbn; lia].
        - exists [e]. rewrite He. split; [reflexivity | cbn; lia].
        - discriminate He. }
      destruct Hone as (new1 & Hnew1 & Hlen1).
      destruct (negb (auto_running (session w1))).
      * cbn [fst snd]. split.
        -- exists new1. split; [assumption | lia].
        -- intros sd' H. injection H as <-. lia.
      * destruct (IH (sd + 1) (snd (emit (Sleep (auto_delay inp)) w1)))
          as ((new & Hnew & Hlen) & Hsd).
        change (session (snd (emit (Sleep (auto_delay inp)) w1)))
          with (session w1) in Hnew.
        split.
        -- exists (new ++ new1).
           rewrite Hnew, Hnew1, app_assoc, length_app.
           split; [reflexivity | lia].
        -- intros sd' H. specialize (Hsd sd' H). lia.
    + cbn [fst snd]. split.
      * exists [].
        destruct Hcases as [(_ & He & _)|[(_ & He & _)|(_ & _ & _ & Hh)]];
          try discriminate He.
        rewrite Hh. split; [reflexivity | cbn; lia].
      * intros sd' H. discriminate H.
Qed.

(* ------------------------------------------------------------------ *)
(** ** Reset *)

(** C7: whatever the session was, the reset handler completes and leaves
    balance 1000, an empty history and the blank reels. *)
Theorem reset_click_restores (w : world) :
  fst (reset_click w) = Ret tt
  /\ balance (session (snd (reset_click w))) = 1000
  /\ history (session (snd (reset_click w))) = []
  /\ last_reels (session (snd (reset_click w))) = ["-"; "-"; "-"]
  /\ (forall (runs : list inputs) (rand : nat -> nat)
        (clock : nat -> datetime),
        let w' := snd (reset_click (interact runs (new_world rand clock))) in
        balance (session w') = START_BALANCE
        /\ history (session w') = []
        /\ last_reels (session w') = last_reels init_state).
Proof.
  repeat split.
Qed.

(** C10, as worded, fails on the message: after a reset the message is the
    reset notice, not the welcome text the session starts with. *)
Lemma reset_click_message_not_initial :
  message (session (snd (reset_click sample_world))) <> message init_state.
Proof.
  cbn. discriminate.
Qed.

(** C10, amended: the reset leaves [last_bet] as it was (the bet of the
    last spin carried out, or 0 on a new session), as well as the two
    flags; it restores balance, history and last reels to their initial
    values and sets the message to the reset notice. *)
Theorem reset_click_keeps_last_bet (w : world) (b frames : Z)
  (speed : spec_float) (ps : bool) (rand : nat -> nat)
  (clock : nat -> datetime) :
  (last_bet (session (snd (reset_click w))) = last_bet (session w)
   /\ auto_running (session (snd (reset_click w)))
      = auto_running (session w)
   /\ action_in_progress (session (snd (reset_click w)))
      = action_in_progress (session w)
   /\ balance (session (snd (reset_click w))) = balance init_state
   /\ history (session (snd (reset_click w))) = history init_state
   /\ last_reels (session (snd (reset_click w))) = last_reels init_state
   /\ message (session (snd (reset_click w)))
      = "Saldo direset ke 1000 coins.")
  /\ last_bet (session (snd (reset_click (new_world rand clock)))) = 0
  /\ (b <= balance (session w) ->
      last_bet
        (session (snd (reset_click (snd (do_spin b frames speed ps w)))))
      = b).
Proof.
  split; [repeat split|]. split; [reflexivity|].
  intros Hb.
  destruct (do_spin_accepted b frames speed ps w Hb) as (_ & _ & Hlb & _).
  exact Hlb.
Qed.

(** A use of [reset_click_keeps_last_bet]: a spin of 10 on a new session,
    then a reset. *)
Lemma reset_click_keeps_last_bet_witness :
  10 <= balance (session poor_world)
  /\ last_bet
       (session (snd (reset_click
                        (snd (do_spin 10 9 float_1_5 true poor_world)))))
     = 10.
Proof.
  assert (H : 10 <= balance (session poor_world))
    by (vm_compute; discriminate).
  split; [exact H|].
  exact (proj2 (proj2 (reset_click_keeps_last_bet poor_world 10 9 float_1_5
                         true (fun i => i) sample_clock)) H).
Defined.

(* ------------------------------------------------------------------ *)
(** ** History *)

(** C6, as worded, fails when the payout computation raises: a spin with
    bet 2^1024 on a balance of 2^1025 is accepted, the reels stop on a pair,
    [int(bet * 1.5)] raises [OverflowError], and the history has not
    grown. *)
Lemma accepted_spin_without_record :
  0 < 2 ^ 1024
  /\ 2 ^ 1024 <= balance (session rich_world)
  /\ fst (do_spin (2 ^ 1024) 0 float_1_5 true rich_world)
     = Raise OverflowError
  /\ history (session (snd (do_spin (2 ^ 1024) 0 float_1_5 true
                              rich_world)))
     = history (session rich_world).
Proof.
  split; [reflexivity|]. split; [vm_compute; discriminate|].
  split; vm_compute; reflexivity.
Qed.

(** C6, amended: an accepted spin that completes puts exactly one record in
    front of the history and leaves the records that were there as they
    were; an accepted spin completes whenever [3 * bet < 2^53] and the
    balance plus 49 times the bet, the most the spin can leave, is below
    10^4300, so that the numbers of the result message can be printed;
    after [K] accepted spins that complete the history is [K] records
    longer, the newest first, so that from a new or a reset session it has
    exactly [K] records. *)
Theorem history_grows_by_one :
  (forall (w w' : world) (b frames : Z) (speed : spec_float) (ps : bool),
      0 < b -> b <= balance (session w) ->
      do_spin b frames speed ps w = (Ret tt, w') ->
      exists e : Entry.t,
        history (session w') = e :: history (session w)
        /\ Entry.bet e = b)
  /\ (forall (w : world) (b frames : Z) (speed : spec_float) (ps : bool),
        0 < b -> b <= balance (session w) -> 3 * b < 2 ^ 53 ->
        balance (session w) + 49 * b < str_limit ->
        exists w' : world, do_spin b frames speed ps w = (Ret tt, w'))
  /\ (forall (bets : list Z) (w w' : world),
        spins bets w w' ->
        exists new : list Entry.t,
          history (session w') = new ++ history (session w)
          /\ List.length new = List.length bets
          /\ map Entry.bet new = rev bets)
  /\ (forall (bets : list Z) (w w' : world),
        spins bets w w' ->
        history (session w) = [] ->
        List.length (history (session w')) = List.length bets)
  /\ (forall (rand : nat -> nat) (clock : nat -> datetime),
        history (session (new_world rand clock)) = [])
  /\ (forall w : world, history (session (snd (reset_click w))) = []).
Proof.
  split; [|split; [|split; [|split; [|split]]]].
  - intros w w' b frames speed ps Hpos Hle Hdo.
    destruct (spins_history [b] w w') as (new & Hnew & Hlen & Hbets).
    { eapply spins_cons; [exact Hpos | exact Hle | exact Hdo | constructor]. }
    destruct new as [|e [|e' new]]; try discriminate Hlen.
    exists e. split; [exact Hnew|].
    cbn in Hbets. congruence.
  - intros w b frames speed ps Hpos Hle Hfit Hlim.
    assert (Hhalf : 3 * b / 2 <= 50 * b)
      by (apply Z.div_le_upper_bound; lia).
    destruct (do_spin_completes b (3 * b / 2) frames speed ps w Hpos Hle)
      as (w' & _ & Hdo & _).
    { apply pair_payout_exact; assumption. }
    { lia. }
    exists w'. exact Hdo.
  - exact spins_history.
  - intros bets w w' Hspins Hempty.
    destruct (spins_history bets w w' Hspins) as (new & Hnew & Hlen & _).
    rewrite Hnew, Hempty, app_nil_r. exact Hlen.
  - reflexivity.
  - reflexivity.
Qed.

(** A use of [history_grows_by_one]: two spins, of 10 and of 20, on a new
    session. *)
Lemma history_grows_by_one_witness :
  spins [10; 20] sample_world
    (after_spin 20 0 (after_spin 10 1 sample_world))
  /\ List.length
       (history (session (after_spin 20 0 (after_spin 10 1 sample_world))))
     = 2%nat.
Proof.
  assert (H : spins [10; 20] sample_world
                (after_spin 20 0 (after_spin 10 1 sample_world))).
  { apply spins_cons with (frames := 1) (speed := float_1_5) (ps := true)
                          (w1 := after_spin 10 1 sample_world).
    - reflexivity.
    - vm_compute. discriminate.
    - vm_compute. reflexivity.
    - apply spins_cons with (frames := 0) (speed := float_1_5) (ps := true)
             (w1 := after_spin 20 0 (after_spin 10 1 sample_world)).
      + reflexivity.
      + vm_compute. discriminate.
      + vm_compute. reflexivity.
      + apply spins_nil. }
  split; [exact H|].
  exact (proj1 (proj2 (proj2 (proj2 history_grows_by_one)))
           [10; 20] sample_world _ H eq_refl).
Defined.

(* ------------------------------------------------------------------ *)
(** ** Auto-spin: how many records a run adds *)

(** C4, as worded, fails when the payout computation raises: with a balance
    of 2^1025 and a bet of 2^1024 the balance suffices for a run of one
    spin, the reels stop on a pair, [int(bet * 1.5)] raises
    [OverflowError], and the run has added no record. *)
Lemma auto_loop_overflow :
  0 < bet (auto_inputs (2 ^ 1024) 1)
  /\ Z.of_nat 1 * bet (auto_inputs (2 ^ 1024) 1)
     <= balance (session rich_world)
  /\ auto_running (session rich_world) = true
  /\ fst (auto_loop 1 (auto_inputs (2 ^ 1024) 1) 0 rich_world)
     = Raise OverflowError
  /\ history (session (snd (auto_loop 1 (auto_inputs (2 ^ 1024) 1) 0
                              rich_world)))
     = history (session rich_world).
Proof.
  split; [reflexivity|]. split; [vm_compute; discriminate|].
  split; [reflexivity|].
  split; vm_compute; reflexivity.
Qed.

(** C4, amended: for a run of the auto-spin loop with count [n] and a
    fixed bet [> 0] whose pair payout [int(bet * 1.5)] does not overflow
    (as for every bet with [3 * bet < 2^53]): if the balance covers [n]
    bets and the highest balance [n] spins can reach is below 10^4300 (the
    balance plus [n] times the highest gain of a spin, 49 times the bet
    when [3 * bet < 2^53]), the run completes, reports [n] spins and adds
    exactly [n] records; for any bet, if the balance is used up after
    [k < n] spins the run stops there, with exactly [k] new records and [k]
    reported; and in every case the run adds at most [n] records and
    reports at most [n]. *)
Theorem auto_loop_records (inp : inputs) (w : world) (n : nat) :
  (forall v : Z,
      0 < bet inp -> pair_win (bet inp) = Ret v ->
      Z.of_nat n * bet inp <= balance (session w) ->
      balance (session w)
      + Z.of_nat n * (Z.max (50 * bet inp) v - bet inp) < str_limit ->
      auto_running (session w) = true ->
      exists w' : world,
        auto_loop n inp 0 w = (Ret (Z.of_nat n), w')
        /\ auto_spins inp n w w'
        /\ List.length (history (session w'))
           = (n + List.length (history (session w)))%nat)
  /\ (0 < bet inp -> 3 * bet inp < 2 ^ 53 ->
      pair_win (bet inp) = Ret (3 * bet inp / 2)
      /\ Z.max (50 * bet inp) (3 * bet inp / 2) - bet inp = 49 * bet inp)
  /\ (forall (k : nat) (w_k : world),
        (k < n)%nat ->
        auto_spins inp k w w_k ->
        balance (session w_k) <= 0 ->
        auto_loop n inp 0 w
        = (Ret (Z.of_nat k),
           snd (emit (Warning "Saldo habis. Auto-Spin berhenti.") w_k))
        /\ List.length (history (session w_k))
           = (k + List.length (history (session w)))%nat)
  /\ (exists new : list Entry.t,
        history (session (snd (auto_loop n inp 0 w)))
        = new ++ history (session w)
        /\ (List.length new <= n)%nat)
  /\ (forall sd : Z,
        fst (auto_loop n inp 0 w) = Ret sd -> 0 <= sd <= Z.of_nat n).
Proof.
  split; [|split; [|split; [|split]]].
  - intros v Hbet Hv Hfund Hlim Har.
    destruct (auto_spins_funded inp v Hbet Hv n w Hfund Hlim Har)
      as (w' & Hsp).
    exists w'.
    pose proof (auto_loop_after_spins inp n w w' Hsp 0%nat 0) as Hloop.
    rewrite Nat.add_0_r in Hloop. cbn [auto_loop ret] in Hloop.
    split; [rewrite Hloop; reflexivity|]. split; [exact Hsp|].
    destruct (auto_spins_history inp n w w' Hsp) as (new & Hnew & Hlen).
    rewrite Hnew, length_app, Hlen. reflexivity.
  - intros Hbet Hfit. split; [apply pair_payout_exact; assumption|].
    assert (Hhalf : 3 * bet inp / 2 <= 50 * bet inp)
      by (apply Z.div_le_upper_bound; lia).
    lia.
  - intros k w_k Hk Hsp Hbal.
    destruct (auto_spins_history inp k w w_k Hsp) as (new & Hnew & Hlen).
    split.
    + replace n with (k + S (n - k - 1))%nat by lia.
      rewrite (auto_loop_after_spins inp k w w_k Hsp), auto_loop_S.
      destruct (Z.leb_spec (balance (session w_k)) 0); [reflexivity | lia].
    + rewrite Hnew, length_app, Hlen. reflexivity.
  - apply (auto_loop_bounded inp n 0 w).
  - intros sd H.
    apply (proj2 (auto_loop_bounded inp n 0 w) sd H).
Qed.

(** A use of [auto_loop_records]: with 20 coins, a run of two spins of 10
    is funded, and a run of five stops after two, the balance used up. *)
Lemma auto_loop_records_witness :
  (exists w' : world,
      auto_loop 2 (auto_inputs 10 5) 0 poor_world = (Ret 2, w')
      /\ auto_spins (auto_inputs 10 5) 2 poor_world w'
      /\ List.length (history (session w')) = 2%nat)
  /\ auto_spins (auto_inputs 10 5) 2 poor_world
       (after_auto_step (auto_inputs 10 5)
          (after_auto_step (auto_inputs 10 5) poor_world))
  /\ balance (session (after_auto_step (auto_inputs 10 5)
                         (after_auto_step (auto_inputs 10 5) poor_world)))
     <= 0
  /\ fst (auto_loop 5 (auto_inputs 10 5) 0 poor_world) = Ret 2.
Proof.
  set (inp := auto_inputs 10 5).
  assert (Hsp : auto_spins inp 2 poor_world
                  (after_auto_step inp (after_auto_step inp poor_world))).
  { apply auto_spins_S
      with (w1 := snd (do_spin 10 0 float_1_5 true poor_world)).
    - reflexivity.
    - vm_compute. discriminate.
    - vm_compute. reflexivity.
    - reflexivity.
    - apply auto_spins_S
        with (w1 := snd (do_spin 10 0 float_1_5 true
                           (after_auto_step inp poor_world))).
      + vm_compute. reflexivity.
      + vm_compute. discriminate.
      + vm_compute. reflexivity.
      + reflexivity.
      + apply auto_spins_O. }
  assert (Hzero : balance (session (after_auto_step inp
                                      (after_auto_step inp poor_world)))
                  <= 0)
    by (vm_compute; discriminate).
  split; [|split; [exact Hsp | split; [exact Hzero|]]].
  - apply (proj1 (auto_loop_records inp poor_world 2) 15).
    + reflexivity.
    + vm_compute. reflexivity.
    + vm_compute. discriminate.
    + vm_compute. reflexivity.
    + reflexivity.
  - assert (Hlt : (2 < 5)%nat) by (repeat constructor).
    rewrite (proj1 (proj1 (proj2 (proj2 (auto_loop_records inp poor_world 5)))
                      2%nat _ Hlt Hsp Hzero)).
    reflexivity.
Defined.

(* ------------------------------------------------------------------ *)
(** ** Auto-spin with a bet the balance does not cover *)

Lemma auto_loop_unaffordable (inp : inputs) (n : nat) :
  forall (sd : Z) (w : world),
    auto_running (session w) = true ->
    0 < balance (session w) < bet inp ->
    auto_loop n inp sd w
    = (Ret (sd + Z.of_nat n),
       {| session := session w; entropy := entropy w; drawn := drawn w;
          wall_clock := wall_clock w; clock_reads := clock_reads w;
          effects := warned inp n (effects w) |}).
Proof.
  induction n as [|n IH]; intros sd w Har Hbal.
  - cbn. rewrite Z.add_0_r. destruct w; reflexivity.
  - rewrite auto_loop_S.
    destruct (Z.leb_spec (balance (session w)) 0); [lia|].
    rewrite do_spin_rejected by lia.
    cbn [emit snd session]. rewrite Har. cbn [negb].
    rewrite IH by (cbn [session]; assumption).
    cbn [session entropy drawn wall_clock clock_reads effects].
    unfold warned. rewrite Nat.iter_succ_r. f_equal. f_equal. lia.
Qed.

(** C9: in an auto-spin run whose balance is positive but below the bet,
    no iteration spins: balance, history, last reels and last bet are as
    before and no draw is made; yet the loop does not stop on that
    condition: each of the requested iterations warns and pauses, each is
    counted, and the run completes and reports all of them as completed
    spins (for a count below 10^4300; the report of a longer count raises
    [ValueError], after all the iterations).  The loop on such a session
    stops early only when the run was stopped: it then ends after one
    counted iteration. *)
Theorem auto_run_unaffordable_bet (inp : inputs) (w : world) :
  auto_running (session w) = true ->
  0 < balance (session w) -> balance (session w) < bet inp ->
  let n := Z.to_nat (auto_count inp) in
  (Z.of_nat n < str_limit -> fst (auto_run inp w) = Ret tt)
  /\ balance (session (snd (auto_run inp w))) = balance (session w)
  /\ history (session (snd (auto_run inp w))) = history (session w)
  /\ last_reels (session (snd (auto_run inp w))) = last_reels (session w)
  /\ last_bet (session (snd (auto_run inp w))) = last_bet (session w)
  /\ drawn (snd (auto_run inp w)) = drawn w
  /\ (Z.of_nat n < str_limit ->
      effects (snd (auto_run inp w))
      = Success (fstring ["Auto-Spin selesai ("; decimal (Z.of_nat n);
                          " putaran)."])
          :: warned inp n (effects w))
  /\ (str_limit <= Z.of_nat n ->
      fst (auto_run inp w) = Raise ValueError
      /\ effects (snd (auto_run inp w)) = warned inp n (effects w))
  /\ (forall (m : nat) (sd : Z),
        fst (auto_loop m inp sd w) = Ret (sd + Z.of_nat m)
        /\ session (snd (auto_loop m inp sd w)) = session w
        /\ effects (snd (auto_loop m inp sd w)) = warned inp m (effects w))
  /\ (forall (m : nat) (sd : Z),
        auto_loop (S m) inp sd
          (with_session (set_auto_running false (session w)) w)
        = (Ret (sd + 1),
           snd (emit (Warning "Saldo tidak cukup untuk taruhan tersebut.")
                  (with_session (set_auto_running false (session w)) w)))).
Proof.
  intros Har Hpos Hlt n.
  assert (Hrun : auto_run inp w
                 = bind (lift (str (Z.of_nat n)))
                     (fun spins_text =>
                        emit (Success (fstring ["Auto-Spin selesai (";
                                                spins_text; " putaran)."])))
                     {| session :=
                          set_action_in_progress false
                            (set_auto_running false
                               (set_action_in_progress true (session w)));
                        entropy := entropy w; drawn := drawn w;
                        wall_clock := wall_clock w;
                        clock_reads := clock_reads w;
                        effects := warned inp n (effects w) |}).
  { unfold auto_run, bind at 1, get_session. rewrite Har. cbn [when].
    unfold bind at 1, modify at 1. unfold bind at 1.
    rewrite auto_loop_unaffordable
      by (cbn [session with_session set_action_in_progress auto_running
               balance]; try assumption; lia).
    reflexivity. }
  rewrite Hrun. unfold bind, lift.
  destruct (str_cases (Z.of_nat n)) as [[Hn ->]|[Hn ->]];
    cbn [fst snd emit session balance history last_reels last_bet
           drawn effects set_action_in_progress set_auto_running].
  - repeat split; try (intros; lia).
    + rewrite auto_loop_unaffordable by (try assumption; lia). reflexivity.
    + rewrite auto_loop_unaffordable by (try assumption; lia). reflexivity.
    + rewrite auto_loop_unaffordable by (try assumption; lia). reflexivity.
    + intros m sd. rewrite auto_loop_S.
      cbn [session with_session balance set_auto_running].
      destruct (Z.leb_spec (balance (session w)) 0); [lia|].
      rewrite do_spin_rejected
        by (cbn [session with_session balance set_auto_running]; lia).
      reflexivity.
  - repeat split; try (intros; lia).
    + rewrite auto_loop_unaffordable by (try assumption; lia). reflexivity.
    + rewrite auto_loop_unaffordable by (try assumption; lia). reflexivity.
    + rewrite auto_loop_unaffordable by (try assumption; lia). reflexivity.
    + intros m sd. rewrite auto_loop_S.
      cbn [session with_session balance set_auto_running].
      destruct (Z.leb_spec (balance (session w)) 0); [lia|].
      rewrite do_spin_rejected
        by (cbn [session with_session balance set_auto_running]; lia).
      reflexivity.
Qed.

(** A use of [auto_run_unaffordable_bet]: 20 coins, a bet of 50 and ten
    requested spins. *)
Lemma auto_run_unaffordable_bet_witness :
  (auto_running (session poor_world) = true
   /\ 0 < balance (session poor_world)
   /\ balance (session poor_world) < bet (auto_inputs 50 10))
  /\ history (session (snd (auto_run (auto_inputs 50 10) poor_world))) = []
  /\ effects (snd (auto_run (auto_inputs 50 10) poor_world))
     = Success "Auto-Spin selesai (10 putaran)."
         :: warned (auto_inputs 50 10) 10 [].
Proof.
  assert (H1 : auto_running (session poor_world) = true) by reflexivity.
  assert (H2 : 0 < balance (session poor_world)) by reflexivity.
  assert (H3 : balance (session poor_world) < bet (auto_inputs 50 10))
    by reflexivity.
  split; [repeat split; assumption|].
  destruct (auto_run_unaffordable_bet (auto_inputs 50 10) poor_world H1 H2 H3)
    as (_ & _ & Hh & _ & _ & _ & He & _).
  split; [exact Hh | apply He; vm_compute; reflexivity].
Defined.

(* ------------------------------------------------------------------ *)
(** * Further properties of the code *)

(* ------------------------------------------------------------------ *)
(** ** Further properties of the payout *)

(** *** The size of the pair payout *)

Lemma shr_1_quot (mrs : shr_record) :
  shr_m (shr_1 mrs) = Z.quot (shr_m mrs) 2.
Proof.
  destruct mrs as [[|[p|p|]|[p|p|]] r s]; cbn [shr_1 shr_m];
    try reflexivity.
  - rewrite Z.quot_div_nonneg by lia.
    apply Z.div_unique with (r := 1); lia.
  - rewrite Z.quot_div_nonneg by lia.
    apply Z.div_unique with (r := 0); lia.
  - change (Zneg p~1) with (- Zpos p~1). rewrite Z.quot_opp_l by lia.
    rewrite Z.quot_div_nonneg by lia.
    rewrite <- (Z.div_unique (Zpos p~1) 2 (Zpos p) 1); lia.
  - change (Zneg p~0) with (- Zpos p~0). rewrite Z.quot_opp_l by lia.
    rewrite Z.quot_div_nonneg by lia.
    rewrite <- (Z.div_unique (Zpos p~0) 2 (Zpos p) 0); lia.
Qed.

Lemma iter_shr_1_quot (p : positive) : forall mrs : shr_record,
  shr_m (iter_pos shr_1 p mrs) = Z.quot (shr_m mrs) (2 ^ Zpos p).
Proof.
  assert (Hnz : forall q : positive, 2 ^ Zpos q <> 0)
    by (intros q; apply Z.pow_nonzero; lia).
  induction p as [p IH|p IH|]; intros mrs; cbn [iter_pos].
  - rewrite IH, IH, shr_1_quot, pow2_xI.
    rewrite !Z.quot_quot by (try apply Hnz; lia).
    f_equal; ring.
  - rewrite IH, IH, pow2_xO.
    rewrite !Z.quot_quot by apply Hnz. reflexivity.
  - rewrite shr_1_quot. reflexivity.
Qed.

Lemma Zpos_lt_pow2_digits (m : positive) : Zpos m < 2 ^ Zpos (digits2_pos m).
Proof.
  rewrite Zdigits2_log2.
  pose proof (Z.log2_spec (Zpos m) ltac:(lia)) as [_ H].
  replace (Z.log2 (Zpos m) + 1) with (Z.succ (Z.log2 (Zpos m))) by lia.
  exact H.
Qed.

(** What is left of a mantissa once it is shifted to the precision has at
    most 53 digits. *)
Lemma shr_fexp_bound (M e e' : Z) (mrs : shr_record) (m : positive) :
  shr_fexp prec emax M e loc_Exact = (mrs, e') ->
  shr_m mrs = Zpos m -> Zpos m < 2 ^ prec.
Proof.
  unfold shr_fexp, shr. cbn [shr_record_of_loc].
  assert (Hn : Zdigits2 M - prec <= fexp prec emax (Zdigits2 M + e) - e)
    by (unfold fexp; lia).
  destruct (fexp prec emax (Zdigits2 M + e) - e) as [|p|p] eqn:En;
    intros H; injection H as <- <-; cbn [shr_m]; intros HM.
  - subst M. cbn [Zdigits2] in Hn.
    pose proof (Zpos_lt_pow2_digits m) as Hd.
    assert (2 ^ Zpos (digits2_pos m) <= 2 ^ prec)
      by (apply Z.pow_le_mono_r; lia).
    lia.
  - rewrite iter_shr_1_quot in HM. cbn [shr_m] in HM.
    assert (Hp : 0 < 2 ^ Zpos p) by (apply Z.pow_pos_nonneg; lia).
    destruct M as [|q|q].
    + rewrite Z.quot_0_l in HM by lia. discriminate HM.
    + rewrite Z.quot_div_nonneg in HM by lia. rewrite <- HM.
      cbn [Zdigits2] in Hn.
      pose proof (Zpos_lt_pow2_digits q) as Hd.
      assert (2 ^ Zpos (digits2_pos q) <= 2 ^ (Zpos p + prec))
        by (apply Z.pow_le_mono_r; lia).
      apply Z.div_lt_upper_bound; [exact Hp|].
      rewrite <- Z.pow_add_r by (unfold prec; lia). lia.
    + change (Zneg q) with (- Zpos q) in HM.
      rewrite Z.quot_opp_l in HM by lia.
      pose proof (Z.quot_pos (Zpos q) (2 ^ Zpos p) ltac:(lia) Hp). lia.
  - subst M. cbn [Zdigits2] in Hn.
    pose proof (Zpos_lt_pow2_digits m) as Hd.
    assert (2 ^ Zpos (digits2_pos m) <= 2 ^ prec)
      by (apply Z.pow_le_mono_r; lia).
    lia.
Qed.

(** A finite double has a mantissa below 2^53 and an exponent of at most
    971. *)
Lemma binary_round_aux_bound (sx s : bool) (mx ex e : Z) (lx : location)
  (m : positive) :
  binary_round_aux prec emax sx mx ex lx = S754_finite s m e ->
  Zpos m < 2 ^ prec /\ e <= emax - prec.
Proof.
  unfold binary_round_aux.
  destruct (shr_fexp prec emax mx ex lx) as [mrs' e'].
  destruct (shr_fexp prec emax _ e' loc_Exact) as [mrs'' e''] eqn:E2.
  destruct (shr_m mrs'') as [|q|q] eqn:Em; try discriminate.
  destruct (Z.leb_spec e'' (emax - prec)) as [Hle|Hgt]; try discriminate.
  intros H. injection H as _ <- <-.
  split; [eapply shr_fexp_bound; eassumption | assumption].
Qed.

Lemma int_of_float_bound (s : bool) (m : positive) (e v : Z) :
  Zpos m < 2 ^ prec -> e <= emax - prec ->
  int_of_float (S754_finite s m e) = Ret v -> Z.abs v < 2 ^ 1024.
Proof.
  intros Hm He H.
  set (a := match e with
            | Z0 => Zpos m
            | Zpos _ => Zpos m * 2 ^ e
            | Zneg _ => Zpos m / 2 ^ (- e)
            end).
  assert (Hv : v = if s then - a else a)
    by (cbn [int_of_float] in H; subst a; congruence).
  assert (Ha : 0 <= a < 2 ^ 1024).
  { subst a. unfold prec, emax in *.
    assert (H53 : 2 ^ 53 < 2 ^ 1024) by (apply Z.pow_lt_mono_r; lia).
    destruct e as [|p|p].
    - lia.
    - assert (Hp : 0 < 2 ^ Zpos p) by (apply Z.pow_pos_nonneg; lia).
      assert (Hq : 2 ^ Zpos p <= 2 ^ 971) by (apply Z.pow_le_mono_r; lia).
      replace (2 ^ 1024) with (2 ^ 53 * 2 ^ 971)
        by (rewrite <- Z.pow_add_r by lia; reflexivity).
      split; [apply Z.mul_nonneg_nonneg; lia|].
      apply Z.lt_le_trans with (2 ^ 53 * 2 ^ Zpos p).
      + apply Z.mul_lt_mono_pos_r; assumption.
      + apply Z.mul_le_mono_nonneg_l; [lia | assumption].
    - assert (Hp : 0 < 2 ^ (- Zneg p)) by (apply Z.pow_pos_nonneg; lia).
      split; [apply Z.div_pos; lia|].
      assert (Zpos m / 2 ^ (- Zneg p) <= Zpos m)
        by (apply Z.div_le_upper_bound; [exact Hp | nia]).
      lia. }
  destruct s; lia.
Qed.

Lemma shr_fexp_nonneg (M e e' : Z) (l : location) (mrs : shr_record) :
  0 <= M -> shr_fexp prec emax M e l = (mrs, e') -> 0 <= shr_m mrs.
Proof.
  intros HM. unfold shr_fexp, shr.
  assert (H0 : shr_m (shr_record_of_loc M l) = M)
    by (destruct l as [|[| |]]; reflexivity).
  destruct (fexp prec emax (Zdigits2 M + e) - e) as [|p|p];
    intros H; injection H as <- <-; try (rewrite H0; exact HM).
  rewrite iter_shr_1_quot, H0.
  apply Z.quot_pos; [exact HM | apply Z.pow_pos_nonneg; lia].
Qed.

Lemma round_nearest_even_nonneg (mx : Z) (lx : location) :
  0 <= mx -> 0 <= round_nearest_even mx lx.
Proof.
  intros H. unfold round_nearest_even.
  destruct lx as [|[| |]]; try destruct (Z.even mx); lia.
Qed.

(** Rounding a positive mantissa never gives NaN. *)
Lemma binary_round_aux_not_nan (sx : bool) (mx : positive) (ex : Z)
  (lx : location) :
  binary_round_aux prec emax sx (Zpos mx) ex lx <> S754_nan.
Proof.
  unfold binary_round_aux.
  destruct (shr_fexp prec emax (Zpos mx) ex lx) as [mrs' e'] eqn:E1.
  apply shr_fexp_nonneg in E1; [|lia].
  destruct (shr_fexp prec emax _ e' loc_Exact) as [mrs'' e''] eqn:E2.
  apply shr_fexp_nonneg in E2; [|apply round_nearest_even_nonneg; exact E1].
  destruct (shr_m mrs'') as [|q|q]; [discriminate| |lia].
  destruct (e'' <=? emax - prec); discriminate.
Qed.

Lemma binary_normalize_not_nan (b : Z) :
  binary_normalize prec emax b 0 false <> S754_nan.
Proof.
  unfold binary_normalize, binary_round.
  destruct b as [|p|p]; [discriminate| |];
    destruct (shl_align p 0 _) as [mz ez];
    apply binary_round_aux_not_nan.
Qed.

(** The only exception [int(bet * 1.5)] raises is [OverflowError]: the
    product is never NaN. *)
Lemma pair_win_raises (b : Z) (e : exn) :
  pair_win b = Raise e -> e = OverflowError.
Proof.
  unfold pair_win, int_mul_float, float_of_int.
  pose proof (binary_normalize_not_nan b) as Hn.
  destruct (binary_normalize prec emax b 0 false) as [s|s| |s m x];
    cbn [res_bind]; try congruence.
  - cbn. discriminate.
  - unfold float_1_5. cbn [SFmul].
    pose proof (binary_round_aux_not_nan (xorb s false)
                  (m * 6755399441055744) (x + -52) loc_Exact) as Hp.
    destruct (binary_round_aux prec emax _ _ _ loc_Exact)
      as [s'|s'| |s' m' e']; cbn [int_of_float]; congruence.
Qed.

(** The two-of-a-kind payout, when [int(bet * 1.5)] returns, is below
    2^1024 in absolute value. *)
Lemma pair_win_bound (b v : Z) : pair_win b = Ret v -> Z.abs v < 2 ^ 1024.
Proof.
  unfold pair_win, int_mul_float, float_of_int.
  destruct (binary_normalize prec emax b 0 false) as [s|s| |s m x];
    cbn [res_bind]; try discriminate.
  - cbn. intros H. injection H as <-. reflexivity.
  - cbn [SFmul float_1_5]. unfold float_1_5. cbn [SFmul].
    destruct (binary_round_aux prec emax _ _ _ loc_Exact)
      as [s'|s'| |s' m' e'] eqn:Hr; cbn [int_of_float]; try discriminate.
    + intros H. injection H as <-. reflexivity.
    + apply binary_round_aux_bound in Hr. destruct Hr as [Hm He].
      apply int_of_float_bound; assumption.
Qed.

(** X1: [evaluate_spin] raises [IndexError] exactly on fewer than three reels,
    whatever the bet, and reads no reel beyond the third. *)
Theorem evaluate_spin_needs_three_reels (reels : list string) (b : Z) :
  (evaluate_spin reels b = Raise IndexError <-> (List.length reels < 3)%nat)
  /\ evaluate_spin reels b = evaluate_spin (firstn 3 reels) b.
Proof.
  split.
  - split.
    + destruct reels as [|r0 [|r1 [|r2 rest]]]; cbn [List.length];
        try lia.
      unfold evaluate_spin.
      destruct (String.eqb r0 r1 && String.eqb r1 r2).
      { destruct (str _) as [text|e] eqn:Es; cbn [res_bind];
          [discriminate|].
        intros H. apply str_raises in Es. congruence. }
      destruct (String.eqb r0 r1 || String.eqb r0 r2 || String.eqb r1 r2);
        [|discriminate].
      destruct (pair_win b) as [v|e] eqn:Hv; cbn [res_bind].
      { destruct (str v) as [text|e] eqn:Es; cbn [res_bind];
          [discriminate|].
        intros H. apply str_raises in Es. congruence. }
      intros H. apply pair_win_raises in Hv. congruence.
    + destruct reels as [|r0 [|r1 [|r2 rest]]]; cbn [List.length];
        try reflexivity.
      lia.
  - destruct reels as [|r0 [|r1 [|r2 rest]]]; reflexivity.
Qed.

Lemma dict_get_PAYOUT_TABLE_listed (sym : string) :
  In sym SYMBOLS -> 4 <= dict_get PAYOUT_TABLE sym 0 <= 50.
Proof.
  unfold SYMBOLS. cbn [In].
  intros [<-|[<-|[<-|[<-|[<-|[<-|[<-|[]]]]]]]]; vm_compute;
    split; discriminate.
Qed.

Lemma dict_get_PAYOUT_TABLE_unlisted (sym : string) :
  ~ In sym SYMBOLS -> dict_get PAYOUT_TABLE sym 0 = 0.
Proof.
  intros H. unfold PAYOUT_TABLE. cbn [dict_get].
  repeat match goal with
         | |- context [String.eqb ?k sym] =>
             destruct (String.eqb_spec k sym) as [E|_];
             [exfalso; apply H; rewrite <- E; cbn; tauto|]
         end.
  reflexivity.
Qed.

(** X2: three equal reels whose symbol has no entry in [PAYOUT_TABLE] are still
    announced as three of a kind, and pay 0: so do the blank reels a session
    starts with.  Every symbol the reels can show has an entry, between 4
    and 50. *)
Theorem evaluate_spin_unlisted_symbol (sym : string) (b : Z) :
  ~ In sym SYMBOLS ->
  evaluate_spin [sym; sym; sym] b
  = Ret (0, fstring ["🎉 Three "; sym; "! You win "; "0"; " coins."])
  /\ evaluate_spin (last_reels init_state) b
     = Ret (0, "🎉 Three -! You win 0 coins.")
  /\ (forall listed : string,
         In listed SYMBOLS -> 4 <= dict_get PAYOUT_TABLE listed 0 <= 50).
Proof.
  intros H. split; [|split].
  - unfold evaluate_spin. rewrite String.eqb_refl. cbn [andb].
    rewrite dict_get_PAYOUT_TABLE_unlisted by assumption.
    rewrite Z.mul_0_r. reflexivity.
  - unfold evaluate_spin. cbn -[Z.mul str fstring].
    rewrite Z.mul_0_r. reflexivity.
  - exact dict_get_PAYOUT_TABLE_listed.
Qed.

(** A use of [evaluate_spin_unlisted_symbol]: three stars, a symbol the
    table does not list, at bet 10. *)
Lemma evaluate_spin_unlisted_symbol_witness :
  ~ In "⭐" SYMBOLS
  /\ evaluate_spin ["⭐"; "⭐"; "⭐"] 10
     = Ret (0, "🎉 Three ⭐! You win 0 coins.").
Proof.
  assert (H : ~ In "⭐" SYMBOLS).
  { cbn. intros [H|[H|[H|[H|[H|[H|[H|[]]]]]]]]; discriminate H. }
  split; [exact H|].
  exact (proj1 (evaluate_spin_unlisted_symbol "⭐" 10 H)).
Defined.

(** *** The order of the reels *)

Lemma evaluate_spin_swap_01 (r0 r1 r2 : string) (b : Z) :
  evaluate_spin [r0; r1; r2] b = evaluate_spin [r1; r0; r2] b.
Proof.
  unfold evaluate_spin.
  destruct (String.eqb_spec r0 r1) as [E01|N01];
    destruct (String.eqb_spec r1 r2) as [E12|N12];
    destruct (String.eqb_spec r0 r2) as [E02|N02];
    destruct (String.eqb_spec r1 r0) as [E10|N10];
    subst; try congruence; cbn [andb orb]; reflexivity.
Qed.

Lemma evaluate_spin_swap_12 (r0 r1 r2 : string) (b : Z) :
  evaluate_spin [r0; r1; r2] b = evaluate_spin [r0; r2; r1] b.
Proof.
  unfold evaluate_spin.
  destruct (String.eqb_spec r0 r1) as [E01|N01];
    destruct (String.eqb_spec r1 r2) as [E12|N12];
    destruct (String.eqb_spec r0 r2) as [E02|N02];
    destruct (String.eqb_spec r2 r1) as [E21|N21];
    subst; try congruence; cbn [andb orb]; reflexivity.
Qed.

(** X3: the payout and its message depend on which symbols the three reels
    show, not on their order. *)
Theorem evaluate_spin_order_irrelevant (reels reels' : list string) (b : Z) :
  Permutation reels reels' ->
  List.length reels = 3%nat ->
  evaluate_spin reels b = evaluate_spin reels' b.
Proof.
  intros Hp. induction Hp as [|x l l' Hp IH|x y l|l l' l'' Hp1 IH1 Hp2 IH2];
    intros Hlen.
  - reflexivity.
  - destruct l as [|a [|c [|d l]]]; try discriminate Hlen.
    destruct (Permutation_length_2_inv Hp) as [->| ->].
    + reflexivity.
    + apply evaluate_spin_swap_12.
  - destruct l as [|a [|c l]]; try discriminate Hlen.
    apply evaluate_spin_swap_01.
  - rewrite IH1 by assumption. apply IH2.
    rewrite <- (Permutation_length Hp1). exact Hlen.
Qed.

(** A use of [evaluate_spin_order_irrelevant]: two diamonds and a lemon in
    two orders. *)
Lemma evaluate_spin_order_irrelevant_witness :
  Permutation ["💎"; "🍋"; "💎"] ["🍋"; "💎"; "💎"]
  /\ evaluate_spin ["💎"; "🍋"; "💎"] 10
     = evaluate_spin ["🍋"; "💎"; "💎"] 10.
Proof.
  assert (H : Permutation ["💎"; "🍋"; "💎"] ["🍋"; "💎"; "💎"])
    by apply perm_swap.
  split; [exact H|].
  exact (evaluate_spin_order_irrelevant _ _ 10 H eq_refl).
Defined.

(* ------------------------------------------------------------------ *)
(** ** What a spin is worth *)

Lemma NoDup_3 (x y z : string) :
  NoDup [x; y; z] <-> x <> y /\ x <> z /\ y <> z.
Proof.
  split.
  - intros H. apply NoDup_cons_iff in H. destruct H as [H1 H].
    apply NoDup_cons_iff in H. destruct H as [H2 _].
    cbn in H1, H2. intuition congruence.
  - intros (H1 & H2 & H3).
    repeat constructor; cbn; intuition congruence.
Qed.

(** The payout on three reels the machine can show, for a bet whose pair
    payout is exact: nothing without a match, at least the bet with one. *)
Lemma evaluate_spin_worth (x y z : string) (b : Z) :
  0 < b -> 3 * b < 2 ^ 53 -> In x SYMBOLS ->
  exists (win : Z) (msg : string),
    evaluate_spin [x; y; z] b = Ret (win, msg)
    /\ (NoDup [x; y; z] -> win = 0)
    /\ (~ NoDup [x; y; z] -> b <= win /\ (win = b -> b = 1))
    /\ win <= 50 * b.
Proof.
  intros Hpos Hfit Hx. unfold evaluate_spin.
  rewrite pair_payout_exact by assumption.
  pose proof (dict_get_PAYOUT_TABLE_listed x Hx) as Hm.
  pose proof (Z.div_mod (3 * b) 2 ltac:(lia)) as Hdiv.
  pose proof (Z.mod_pos_bound (3 * b) 2 ltac:(lia)) as Hmod.
  pose proof str_limit_above_doubles as Hlim.
  cbn [res_bind].
  rewrite (str_Ret (b * dict_get PAYOUT_TABLE x 0)) by nia.
  rewrite (str_Ret (3 * b / 2)) by lia.
  destruct (String.eqb_spec x y) as [Exy|Nxy];
    destruct (String.eqb_spec y z) as [Eyz|Nyz];
    destruct (String.eqb_spec x z) as [Exz|Nxz];
    cbn [andb orb res_bind]; do 2 eexists; (split; [reflexivity|]);
    (split; [intros Hn; apply NoDup_3 in Hn; destruct Hn as (H1 & H2 & H3);
             try contradiction; try reflexivity
            | split; [|first [nia | lia]]; intros Hn;
              first [ exfalso; apply Hn; apply NoDup_3; repeat split;
                      assumption
                    | split; [|intros Hw]; first [nia | lia] ]]).
Qed.

(** X4: for a bet [b > 0] within the balance and with [3 * b < 2^53]: on
    three different symbols the balance goes down by exactly [b]; on any
    match it does not go down, and it stays the same only for a bet of 1
    coin (two of a kind then pay the coin back); it never goes up by more
    than 49 times the bet.  The spin completes if the balance plus 49 times
    the bet is below 10^4300. *)
Theorem matching_spin_never_loses (w : world) (b frames : Z)
  (speed : spec_float) (ps : bool) :
  0 < b -> b <= balance (session w) -> 3 * b < 2 ^ 53 ->
  let r := do_spin b frames speed ps w in
  (balance (session w) + 49 * b < str_limit -> fst r = Ret tt)
  /\ (NoDup (final_reels frames w) ->
      balance (session (snd r)) = balance (session w) - b)
  /\ (~ NoDup (final_reels frames w) ->
      balance (session w) <= balance (session (snd r)))
  /\ (balance (session (snd r)) = balance (session w) ->
      b = 1 /\ ~ NoDup (final_reels frames w))
  /\ balance (session (snd r)) <= balance (session w) + 49 * b.
Proof.
  intros Hpos Hle Hfit r. subst r.
  destruct (do_spin_accepted b frames speed ps w Hle) as (Hres & _).
  cbv zeta in Hres.
  destruct (evaluate_spin_worth
              (symbol_at w (drawn w + 3 * Z.to_nat frames))
              (symbol_at w (S (drawn w + 3 * Z.to_nat frames)))
              (symbol_at w (S (S (drawn w + 3 * Z.to_nat frames))))
              b Hpos Hfit (symbol_at_In _ _))
    as (win & msg & Hev & Hnone & Hsome & Hmax).
  change (evaluate_spin (final_reels frames w) b = Ret (win, msg)) in Hev.
  change (NoDup (final_reels frames w) -> win = 0) in Hnone.
  change (~ NoDup (final_reels frames w) -> b <= win /\ (win = b -> b = 1))
    in Hsome.
  rewrite Hev in Hres. destruct Hres as (Hbal & _ & Hres).
  assert (Hwin : 0 <= win)
    by (apply (evaluate_spin_nonneg (final_reels frames w) b win msg);
        [lia | exact Hev]).
  assert (Hw : (if win >? 0 then win else 0) = win)
    by (destruct (Z.gtb_spec win 0); lia).
  rewrite Hw in Hbal, Hres.
  split.
  { intros Hlim. rewrite !str_Ret in Hres by lia. apply Hres. }
  destruct (ListDec.NoDup_dec string_dec (final_reels frames w)) as [Hn|Hn].
  - specialize (Hnone Hn). subst win.
    split; [intros _; lia|]. split; [intros Hc; contradiction|].
    split; intros; lia.
  - destruct (Hsome Hn) as [Hge Hone].
    split; [intros Hc; contradiction|]. split; [intros _; lia|].
    split; [|lia].
    intros Heq. split; [apply Hone; lia | exact Hn].
Qed.

(** A use of [matching_spin_never_loses]: a bet of 1 on reels that stop on
    two cherries and a bell. *)
Lemma matching_spin_never_loses_witness :
  (0 < 1 /\ 1 <= balance (session pair_world) /\ 3 * 1 < 2 ^ 53)
  /\ fst (do_spin 1 0 float_1_5 true pair_world) = Ret tt
  /\ balance (session pair_world)
     <= balance (session (snd (do_spin 1 0 float_1_5 true pair_world))).
Proof.
  assert (H1 : 0 < 1) by reflexivity.
  assert (H2 : 1 <= balance (session pair_world))
    by (vm_compute; discriminate).
  assert (H3 : 3 * 1 < 2 ^ 53) by reflexivity.
  split; [repeat split; assumption|].
  destruct (matching_spin_never_loses pair_world 1 0 float_1_5 true H1 H2 H3)
    as (Hr & _ & Hm & _).
  split; [apply Hr; vm_compute; reflexivity|]. apply Hm.
  intros Hn. apply NoDup_cons_iff in Hn. destruct Hn as [Hn _].
  apply Hn. left. vm_compute. reflexivity.
Defined.

(* ------------------------------------------------------------------ *)
(** ** Bets of zero or less *)

Lemma int_of_float_nonpos (m : positive) (e w : Z) :
  int_of_float (S754_finite true m e) = Ret w -> w <= 0.
Proof.
  intros H.
  assert (Hw : w = - match e with
                     | Z0 => Zpos m
                     | Zpos _ => Zpos m * 2 ^ e
                     | Zneg _ => Zpos m / 2 ^ (- e)
                     end) by (cbn [int_of_float] in H; congruence).
  rewrite Hw. clear H Hw.
  destruct e as [|p|p].
  - lia.
  - assert (0 <= Zpos m * 2 ^ Zpos p)
      by (apply Z.mul_nonneg_nonneg; [lia | apply Z.pow_nonneg; lia]).
    lia.
  - assert (0 <= Zpos m / 2 ^ (- Zneg p))
      by (apply Z.div_pos; [lia | apply Z.pow_pos_nonneg; lia]).
    lia.
Qed.

Lemma pair_payout_nonpos (b w : Z) :
  b <= 0 ->
  pair_win b = Ret w -> w <= 0.
Proof.
  intros Hb. unfold pair_win, int_mul_float, float_of_int, binary_normalize.
  destruct b as [|p|p]; try lia.
  - cbn. intros H. injection H as <-. lia.
  - unfold binary_round.
    destruct (shl_align p 0 _) as [mz ez].
    pose proof (binary_round_aux_sign true (Zpos mz) ez loc_Exact) as Hs.
    destruct (binary_round_aux prec emax true (Zpos mz) ez loc_Exact)
      as [s|s| |s m e]; cbn [res_bind]; try discriminate.
    + cbn. intros H. injection H as <-. lia.
    + subst s. unfold float_1_5. cbn [SFmul xorb].
      pose proof (binary_round_aux_sign true
                    (Zpos (m * 6755399441055744)) (e + -52) loc_Exact) as Hs.
      destruct (binary_round_aux prec emax true _ (e + -52) loc_Exact)
        as [s|s| |s m' e']; try discriminate.
      * cbn. intros H. injection H as <-. lia.
      * subst s. apply int_of_float_nonpos.
Qed.

Lemma evaluate_spin_nonpos (reels : list string) (b w : Z) (msg : string) :
  b <= 0 -> evaluate_spin reels b = Ret (w, msg) -> w <= 0.
Proof.
  intros Hb. unfold evaluate_spin.
  destruct reels as [|r0 [|r1 [|r2 rest]]]; try discriminate.
  destruct (String.eqb r0 r1 && String.eqb r1 r2).
  - destruct (str _) as [text|e]; cbn [res_bind]; try discriminate.
    intros H. injection H as <- _.
    apply Z.mul_nonpos_nonneg; [lia | apply dict_get_PAYOUT_TABLE_nonneg].
  - destruct (String.eqb r0 r1 || String.eqb r0 r2 || String.eqb r1 r2).
    + destruct (pair_win b) as [v|e] eqn:Hv;
        cbn [res_bind]; try discriminate.
      destruct (str v) as [text|e]; cbn [res_bind]; try discriminate.
      intros H. injection H as <- _. eapply pair_payout_nonpos; eassumption.
    + intros H. injection H as <- _. lia.
Qed.

(** What [do_spin] does with a bet of zero or less, which its own guard
    lets through. *)
Lemma do_spin_nonpositive (b frames : Z) (speed : spec_float) (ps : bool)
  (w : world) :
  b <= 0 -> 0 <= balance (session w) ->
  balance (session (snd (do_spin b frames speed ps w)))
  = balance (session w) - b
  /\ auto_running (session (snd (do_spin b frames speed ps w)))
     = auto_running (session w).
Proof.
  intros Hb Hbal.
  destruct (do_spin_accepted b frames speed ps w ltac:(lia))
    as (Hres & _ & _ & Har & _).
  cbv zeta in Hres. split; [|exact Har].
  destruct (evaluate_spin (final_reels frames w) b) as [[win msg]|e] eqn:Hev.
  - destruct Hres as (Hbal' & _).
    pose proof (evaluate_spin_nonpos _ _ _ _ Hb Hev).
    destruct (Z.gtb_spec win 0); lia.
  - destruct Hres as (_ & Hbal' & _). exact Hbal'.
Qed.

Lemma auto_loop_nonpositive (inp : inputs) (n : nat) :
  bet inp <= 0 ->
  forall (sd : Z) (w : world),
    0 < balance (session w) ->
    balance (session w) - bet inp
    <= balance (session (snd (auto_loop (S n) inp sd w))).
Proof.
  intros Hb. induction n as [|n IH]; intros sd w Hbal.
  - rewrite auto_loop_S.
    destruct (Z.leb_spec (balance (session w)) 0); [lia|].
    destruct (do_spin_nonpositive (bet inp) (animation_frames inp)
                (spin_speed inp) true w Hb ltac:(lia)) as (Hb1 & _).
    destruct (do_spin _ _ _ _ w) as [[[]|e] w1]; cbn [snd] in *.
    + destruct (negb (auto_running (session w1)));
        cbn [auto_loop ret emit snd session]; lia.
    + lia.
  - rewrite auto_loop_S.
    destruct (Z.leb_spec (balance (session w)) 0); [lia|].
    destruct (do_spin_nonpositive (bet inp) (animation_frames inp)
                (spin_speed inp) true w Hb ltac:(lia)) as (Hb1 & _).
    destruct (do_spin _ _ _ _ w) as [[[]|e] w1]; cbn [snd] in *.
    + destruct (negb (auto_running (session w1))); [cbn [snd]; lia|].
      pose proof (IH (sd + 1) (snd (emit (Sleep (auto_delay inp)) w1))
                    ltac:(cbn [emit snd session]; lia)) as IH'.
      change (balance (session (snd (emit (Sleep (auto_delay inp)) w1))))
        with (balance (session w1)) in IH'.
      lia.
    + lia.
Qed.

(** X5: [do_spin] does not turn down a bet of zero or less: on a balance that
    is not negative the spin is carried out and, no payout being credited
    for such a bet, the balance ends at the old one minus the bet, that is
    not lower, whether the spin completes or raises.  The auto-spin loop
    calls [do_spin] without the check of the spin button: a run of at
    least one iteration with such a bet on a positive balance leaves a
    balance at least that much higher. *)
Theorem do_spin_nonpositive_bet (inp : inputs) (w : world) :
  bet inp <= 0 ->
  (forall (frames : Z) (speed : spec_float) (ps : bool),
      0 <= balance (session w) ->
      balance (session (snd (do_spin (bet inp) frames speed ps w)))
      = balance (session w) - bet inp
      /\ last_bet (session (snd (do_spin (bet inp) frames speed ps w)))
         = bet inp)
  /\ (forall (n : nat) (sd : Z),
        0 < balance (session w) ->
        balance (session w) - bet inp
        <= balance (session (snd (auto_loop (S n) inp sd w)))).
Proof.
  intros Hb. split.
  - intros frames speed ps Hbal. split.
    + apply do_spin_nonpositive; assumption.
    + destruct (do_spin_accepted (bet inp) frames speed ps w ltac:(lia))
        as (_ & _ & Hlb & _).
      exact Hlb.
  - intros n sd Hbal. apply auto_loop_nonpositive; assumption.
Qed.

(** A use of [do_spin_nonpositive_bet]: a bet of -5 on a balance of 20. *)
Lemma do_spin_nonpositive_bet_witness :
  bet (auto_inputs (-5) 3) <= 0
  /\ balance (session (snd (do_spin (-5) 0 float_1_5 true poor_world))) = 25.
Proof.
  assert (H : bet (auto_inputs (-5) 3) <= 0) by (vm_compute; discriminate).
  split; [exact H|].
  exact (proj1 (proj1 (do_spin_nonpositive_bet (auto_inputs (-5) 3)
                          poor_world H) 0 float_1_5 true
                  ltac:(vm_compute; discriminate))).
Defined.

(* ------------------------------------------------------------------ *)
(** ** What a spin consumes *)

(** X6: a spin that is carried out makes three draws for each animation frame
    and three for its outcome, so that the outcome is read from draws the
    animation has not shown; it reads the clock once if the payout
    computation returns, also when the spin then raises on its message, and
    not at all if that computation raises.  A frame count of zero or less
    means no frame.  A spin that is turned down draws nothing and does not
    read the clock. *)
Theorem do_spin_draws (b frames : Z) (speed : spec_float) (ps : bool)
  (w : world) :
  let r := do_spin b frames speed ps w in
  (b <= balance (session w) ->
   drawn (snd r) = (drawn w + 3 * Z.to_nat frames + 3)%nat
   /\ last_reels (session (snd r))
      = [symbol_at w (drawn w + 3 * Z.to_nat frames);
         symbol_at w (drawn w + 3 * Z.to_nat frames + 1);
         symbol_at w (drawn w + 3 * Z.to_nat frames + 2)]
   /\ (fst r = Ret tt -> clock_reads (snd r) = S (clock_reads w))
   /\ clock_reads (snd r)
      = match evaluate_spin (final_reels frames w) b with
        | Ret _ => S (clock_reads w)
        | Raise _ => clock_reads w
        end
   /\ (frames <= 0 -> drawn (snd r) = (drawn w + 3)%nat))
  /\ (b > balance (session w) ->
      drawn (snd r) = drawn w /\ clock_reads (snd r) = clock_reads w)
  /\ entropy (snd r) = entropy w
  /\ wall_clock (snd r) = wall_clock w.
Proof.
  intros r. subst r.
  destruct (Z.gtb_spec b (balance (session w))) as [Hgt|Hle].
  - rewrite do_spin_rejected by lia.
    split; [intros; lia|]. repeat split.
  - destruct (do_spin_accepted b frames speed ps w Hle)
      as (Hres & Hlr & _ & _ & _ & He & Hwc & Hd).
    cbv zeta in Hres.
    assert (Hc : clock_reads (snd (do_spin b frames speed ps w))
                 = match evaluate_spin (final_reels frames w) b with
                   | Ret _ => S (clock_reads w)
                   | Raise _ => clock_reads w
                   end).
    { destruct (evaluate_spin (final_reels frames w) b) as [[win msg]|e];
        apply Hres. }
    split; [|split; [intros; lia | split; assumption]].
    intros _. split; [exact Hd|]. split.
    { rewrite Hlr. unfold final_reels, reels_after.
      repeat f_equal; lia. }
    split; [|split; [exact Hc|]].
    + intros Hr. rewrite Hc.
      destruct (evaluate_spin (final_reels frames w) b) as [[win msg]|e];
        [reflexivity|].
      destruct Hres as (Hr' & _). congruence.
    + intros Hf. rewrite Hd.
      replace (Z.to_nat frames) with 0%nat by lia. lia.
Qed.

(** A use of [do_spin_draws]: a spin of 10 with nine animation frames on a
    new session, and a spin of 1 on a balance of 10^4300 + 1, which reads
    the clock and then raises on its message. *)
Lemma do_spin_draws_witness :
  (10 <= balance (session sample_world)
   /\ drawn (snd (do_spin 10 9 float_1_5 true sample_world)) = 30%nat)
  /\ (1 <= balance (session vast_world)
      /\ fst (do_spin 1 0 float_1_5 true vast_world) = Raise ValueError
      /\ clock_reads (snd (do_spin 1 0 float_1_5 true vast_world))
         = S (clock_reads vast_world)).
Proof.
  assert (H : 10 <= balance (session sample_world))
    by (vm_compute; discriminate).
  assert (H' : 1 <= balance (session vast_world))
    by (vm_compute; discriminate).
  split; [split; [exact H|]|split; [exact H'|split]].
  - exact (proj1 (proj1 (do_spin_draws 10 9 float_1_5 true sample_world) H)).
  - vm_compute. reflexivity.
  - destruct (proj1 (do_spin_draws 1 0 float_1_5 true vast_world) H')
      as (_ & _ & _ & Hc & _).
    rewrite Hc. vm_compute. reflexivity.
Defined.

(* ------------------------------------------------------------------ *)
(** ** Exceptions of the payout *)


(** The pair payout is always short enough to be printed. *)
Lemma pair_win_printed (b v : Z) :
  pair_win b = Ret v -> str v = Ret (decimal v).
Proof.
  intros Hv. apply str_Ret.
  pose proof (pair_win_bound b v Hv). pose proof str_limit_above_doubles.
  lia.
Qed.

(** [evaluate_spin] on three reels or more, case by case. *)
Lemma evaluate_spin_three (r0 r1 r2 : string) (rest : list string) (b : Z) :
  evaluate_spin (r0 :: r1 :: r2 :: rest) b
  = if String.eqb r0 r1 && String.eqb r1 r2 then
      res_bind (str (b * dict_get PAYOUT_TABLE r0 0))
        (fun text =>
           Ret (b * dict_get PAYOUT_TABLE r0 0,
                fstring ["🎉 Three "; r0; "! You win "; text; " coins."]))
    else if String.eqb r0 r1 || String.eqb r0 r2 || String.eqb r1 r2 then
      match pair_win b with
      | Ret win =>
          Ret (win,
               fstring ["🙂 Two of a kind — you win "; decimal win;
                        " coins."])
      | Raise e => Raise e
      end
    else Ret (0, "😞 No match — try again.").
Proof.
  unfold evaluate_spin.
  destruct (String.eqb r0 r1 && String.eqb r1 r2); [reflexivity|].
  destruct (String.eqb r0 r1 || String.eqb r0 r2 || String.eqb r1 r2);
    [|reflexivity].
  destruct (pair_win b) as [v|e] eqn:Hv; cbn [res_bind]; [|reflexivity].
  rewrite (pair_win_printed b v Hv). reflexivity.
Qed.

(** X7: the exceptions of [evaluate_spin].  It raises [OverflowError] exactly
    on three reels that show two of a kind, not three, when
    [int(bet * 1.5)] overflows; it raises [ValueError] exactly on three
    equal reels whose payout, the bet times the multiplier, has more than
    4300 digits: the pair payout, below 2^1024 when it is computed, is
    always printed, and [int(bet * 1.5)] raises nothing but
    [OverflowError].  With a bet [b > 0] such that [3 * b < 2^53] it
    returns on any three reels. *)
Theorem evaluate_spin_exceptions (reels : list string) (b : Z) :
  (evaluate_spin reels b = Raise OverflowError <->
   exists (r0 r1 r2 : string) (rest : list string),
     reels = r0 :: r1 :: r2 :: rest
     /\ ~ (r0 = r1 /\ r1 = r2) /\ (r0 = r1 \/ r0 = r2 \/ r1 = r2)
     /\ pair_win b = Raise OverflowError)
  /\ (evaluate_spin reels b = Raise ValueError <->
      exists (sym : string) (rest : list string),
        reels = sym :: sym :: sym :: rest
        /\ str_limit <= Z.abs (b * dict_get PAYOUT_TABLE sym 0))
  /\ (forall v : Z,
         pair_win b = Ret v ->
         Z.abs v < 2 ^ 1024 /\ str v = Ret (decimal v))
  /\ (forall e : exn, pair_win b = Raise e -> e = OverflowError)
  /\ (0 < b -> 3 * b < 2 ^ 53 -> (3 <= List.length reels)%nat ->
      exists (win : Z) (msg : string),
        evaluate_spin reels b = Ret (win, msg)).
Proof.
  split; [|split; [|split; [|split]]].
  - split.
    + destruct reels as [|r0 [|r1 [|r2 rest]]]; try discriminate.
      rewrite evaluate_spin_three. intros H.
      exists r0, r1, r2, rest. split; [reflexivity|].
      destruct (String.eqb_spec r0 r1) as [E01|N01];
        destruct (String.eqb_spec r1 r2) as [E12|N12];
        destruct (String.eqb_spec r0 r2) as [E02|N02];
        cbn [andb orb] in H; try discriminate H;
        try (destruct (str _) as [text|e] eqn:Es; cbn [res_bind] in H;
             [discriminate H | apply str_raises in Es; congruence]);
        (split; [intros [? ?]; congruence|]);
        (split; [tauto|]);
        destruct (pair_win b) as [v|e]; congruence.
    + intros (r0 & r1 & r2 & rest & -> & Hnot & Htwo & Hp).
      rewrite evaluate_spin_three, Hp.
      destruct (String.eqb_spec r0 r1) as [E01|N01];
        destruct (String.eqb_spec r1 r2) as [E12|N12];
        destruct (String.eqb_spec r0 r2) as [E02|N02];
        cbn [andb orb]; try reflexivity; exfalso; tauto.
  - split.
    + destruct reels as [|r0 [|r1 [|r2 rest]]]; try discriminate.
      rewrite evaluate_spin_three. intros H.
      destruct (String.eqb_spec r0 r1) as [E01|N01];
        destruct (String.eqb_spec r1 r2) as [E12|N12];
        destruct (String.eqb_spec r0 r2) as [E02|N02];
        cbn [andb orb] in H; try discriminate H;
        try (destruct (pair_win b) as [v|e] eqn:Hp;
             [discriminate H
             | apply pair_win_raises in Hp; congruence]).
      * subst r1 r2. exists r0, rest. split; [reflexivity|].
        destruct (str_cases (b * dict_get PAYOUT_TABLE r0 0))
          as [[_ Hs]|[Hl _]]; [|exact Hl].
        rewrite Hs in H. discriminate H.
      * congruence.
    + intros (sym & rest & -> & Hl).
      rewrite evaluate_spin_three, !String.eqb_refl. cbn [andb].
      rewrite str_Raise by exact Hl. reflexivity.
  - intros v Hv. split; [exact (pair_win_bound b v Hv)|].
    exact (pair_win_printed b v Hv).
  - exact (pair_win_raises b).
  - intros Hpos Hfit Hlen.
    destruct reels as [|r0 [|r1 [|r2 rest]]]; cbn [List.length] in Hlen;
      try lia.
    rewrite evaluate_spin_three, pair_payout_exact by assumption.
    pose proof (dict_get_PAYOUT_TABLE_nonneg r0) as Hm0.
    pose proof (dict_get_PAYOUT_TABLE_le r0) as Hm1.
    pose proof str_limit_above_doubles as Hlim.
    rewrite (str_Ret (b * dict_get PAYOUT_TABLE r0 0)) by nia.
    cbn [res_bind].
    destruct (String.eqb r0 r1 && String.eqb r1 r2);
      [do 2 eexists; reflexivity|].
    destruct (String.eqb r0 r1 || String.eqb r0 r2 || String.eqb r1 r2);
      do 2 eexists; reflexivity.
Qed.

(* ------------------------------------------------------------------ *)
(** ** The history accounts for the balance *)

Lemma audit_net (start : Z) (rows : list Entry.t) :
  audit start rows = true -> closing start rows = start + net rows.
Proof.
  induction rows as [|e older IH]; intros H.
  - cbn. lia.
  - cbn [audit] in H.
    apply andb_prop in H. destruct H as [H Ha].
    apply andb_prop in H. destruct H as [H _].
    apply andb_prop in H. destruct H as [H _].
    apply Z.eqb_eq in H. specialize (IH Ha).
    cbn [closing net fold_right]. fold (net older). lia.
Qed.

Lemma bind_Ret (A B : Type) (m : M A) (k : A -> M B) (w w' : world) (b : B) :
  bind m k w = (Ret b, w') ->
  exists (a : A) (w1 : world), m w = (Ret a, w1) /\ k a w1 = (Ret b, w').
Proof.
  unfold bind. destruct (m w) as [[a|e] w1]; [|discriminate].
  intros H. exists a, w1. split; [reflexivity | exact H].
Qed.

Lemma keeps_done_keeps (I : session_state -> Prop) (A : Type) (m : M A) :
  keeps I m -> keeps_done I m.
Proof.
  intros Hm w w' a Hw H. specialize (Hm w Hw). rewrite H in Hm. exact Hm.
Qed.

Lemma keeps_done_bind (I : session_state -> Prop) (A B : Type) (m : M A)
  (k : A -> M B) :
  keeps_done I m -> (forall a : A, keeps_done I (k a)) ->
  keeps_done I (bind m k).
Proof.
  intros Hm Hk w w' b Hw H.
  apply bind_Ret in H. destruct H as (a & w1 & H1 & H2).
  exact (Hk a w1 w' b (Hm w w1 a Hw H1) H2).
Qed.

Lemma keeps_done_when (I : session_state -> Prop) (c : bool) (m : M unit) :
  keeps_done I m -> keeps_done I (when c m).
Proof.
  intros Hm. destruct c; [exact Hm|].
  apply keeps_done_keeps, keeps_ret.
Qed.

(** A spin that completes has recorded what it did to the balance. *)
Lemma ledger_do_spin (b frames : Z) (speed : spec_float) (ps : bool) :
  0 < b -> keeps_done ledger (do_spin b frames speed ps).
Proof.
  intros Hpos w w' [] [Ha Hb] Hdo.
  destruct (Z.gtb_spec b (balance (session w))) as [Hgt|Hle].
  - rewrite do_spin_rejected in Hdo by lia. injection Hdo as <-.
    split; assumption.
  - destruct (do_spin_Ret b frames speed ps w w' Hle Hdo)
      as (win & msg & Hev & Hbal & Hhist & _).
    assert (Hwin : 0 <= win)
      by (apply (evaluate_spin_nonneg (final_reels frames w) b win msg);
          [lia | exact Hev]).
    assert (Hbal' : balance (session w') = balance (session w) - b + win)
      by (rewrite Hbal; destruct (Z.gtb_spec win 0); lia).
    unfold ledger. rewrite Hhist. cbn [audit closing Entry.balance_after
                                         Entry.bet Entry.win].
    split; [|reflexivity].
    rewrite Ha, <- Hb, Hbal'.
    rewrite Z.eqb_refl.
    destruct (Z.ltb_spec 0 b); [|lia].
    destruct (Z.leb_spec 0 win); [|lia]. reflexivity.
Qed.

Lemma keeps_ledger_reset_click : keeps ledger reset_click.
Proof. intros w _. split; reflexivity. Qed.

Lemma keeps_ledger_flag (f : session_state -> session_state) :
  (forall s : session_state,
      history (f s) = history s /\ balance (f s) = balance s) ->
  keeps ledger (modify f).
Proof.
  intros Hf. apply keeps_modify. intros s [Ha Hb].
  destruct (Hf s) as [Hh Hbal]. unfold ledger. rewrite Hh, Hbal.
  split; assumption.
Qed.

Ltac ledger_steps Hspin Hloop :=
  repeat first
    [ apply Hloop
    | apply Hspin
    | apply keeps_done_keeps;
      first [ exact keeps_ledger_reset_click
            | apply keeps_get_session
            | apply keeps_emit
            | apply keeps_lift
            | apply keeps_ret
            | apply keeps_ledger_flag; intros; split; reflexivity ]
    | apply keeps_done_when
    | apply keeps_done_bind; [|intros]
    | match goal with
      | |- keeps_done _ (if ?c then _ else _) => destruct c
      | |- keeps_done _ (match history ?s with _ => _ end) =>
          destruct (history s)
      end ].

Lemma ledger_auto_loop (inp : inputs) (n : nat) :
  0 < bet inp ->
  forall spins_done : Z, keeps_done ledger (auto_loop n inp spins_done).
Proof.
  intros Hpos.
  pose proof (fun frames speed ps =>
                ledger_do_spin (bet inp) frames speed ps Hpos) as Hspin.
  induction n as [|n IH]; intros spins_done; cbn [auto_loop];
    ledger_steps Hspin IH.
Qed.

Lemma ledger_script (inp : inputs) :
  0 < bet inp -> keeps_done ledger (script inp).
Proof.
  intros Hpos.
  pose proof (fun n => ledger_auto_loop inp n Hpos) as Hloop.
  pose proof (fun frames speed ps =>
                ledger_do_spin (bet inp) frames speed ps Hpos) as Hspin.
  unfold script, spin_click, auto_run.
  ledger_steps Hspin Hloop.
Qed.

(** Page runs that complete keep the ledger. *)
Lemma ledger_interact (runs : list inputs) :
  Forall (fun inp => 0 < bet inp) runs ->
  forall w : world,
    completes runs w = true ->
    ledger (session w) -> ledger (session (interact runs w)).
Proof.
  induction 1 as [|inp runs Hpos _ IH]; intros w Hc Hw; [exact Hw|].
  cbn [interact completes] in *.
  destruct (script inp w) as [[[]|e] w1] eqn:Hs; [|discriminate Hc].
  cbn [snd]. apply IH; [exact Hc|].
  exact (ledger_script inp Hpos w w1 tt Hw Hs).
Qed.

(** *** Runs that cannot reach a balance too long to print *)

Lemma bind_runs (A B : Type) (m : M A) (k : A -> M B) (w w1 : world)
  (a : A) :
  m w = (Ret a, w1) -> bind m k w = k a w1.
Proof. intros H. unfold bind. rewrite H. reflexivity. Qed.

(** A call of [do_spin] with a bet [b > 0], [3 * b < 2^53], completes if
    the balance plus 49 times the bet can be printed, and adds at most that
    much to the balance. *)
Lemma do_spin_within (b frames : Z) (speed : spec_float) (ps : bool)
  (w : world) :
  0 < b -> 3 * b < 2 ^ 53 ->
  0 <= balance (session w) ->
  balance (session w) + 49 * b < str_limit ->
  exists w' : world,
    do_spin b frames speed ps w = (Ret tt, w')
    /\ 0 <= balance (session w') <= balance (session w) + 49 * b
    /\ auto_running (session w') = auto_running (session w).
Proof.
  intros Hpos Hfit Hbal Hlim.
  destruct (Z.gtb_spec b (balance (session w))) as [Hgt|Hle].
  - rewrite do_spin_rejected by lia. eexists. split; [reflexivity|].
    cbn [emit snd session]. split; [lia | reflexivity].
  - assert (Hhalf : 3 * b / 2 <= 50 * b)
      by (apply Z.div_le_upper_bound; lia).
    destruct (do_spin_completes b (3 * b / 2) frames speed ps w Hpos Hle
                (pair_payout_exact b Hpos Hfit) ltac:(lia))
      as (w' & e & Hdo & Hb' & _ & _ & Har).
    exists w'. split; [exact Hdo|]. split; [lia | exact Har].
Qed.

Lemma auto_loop_within (inp : inputs) :
  0 < bet inp -> 3 * bet inp < 2 ^ 53 ->
  forall (n : nat) (sd : Z) (w : world),
    0 <= balance (session w) ->
    balance (session w) + 49 * bet inp * Z.of_nat n < str_limit ->
    exists (sd' : Z) (w' : world),
      auto_loop n inp sd w = (Ret sd', w')
      /\ 0 <= balance (session w')
         <= balance (session w) + 49 * bet inp * Z.of_nat n
      /\ sd <= sd' <= sd + Z.of_nat n.
Proof.
  intros Hpos Hfit. induction n as [|n IH]; intros sd w Hbal Hlim.
  - exists sd, w. split; [reflexivity|]. lia.
  - rewrite auto_loop_S.
    destruct (Z.leb_spec (balance (session w)) 0) as [Hz|Hp].
    { eexists sd, _. split; [reflexivity|].
      cbn [emit snd session]. nia. }
    destruct (do_spin_within (bet inp) (animation_frames inp)
                (spin_speed inp) true w Hpos Hfit Hbal ltac:(nia))
      as (w1 & Hdo & Hb1 & _).
    rewrite Hdo.
    destruct (negb (auto_running (session w1))).
    { exists (sd + 1), w1. split; [reflexivity|]. nia. }
    destruct (IH (sd + 1) (snd (emit (Sleep (auto_delay inp)) w1)))
      as (sd' & w' & Hloop & Hb' & Hsd).
    + cbn [emit snd session]. lia.
    + cbn [emit snd session]. nia.
    + cbn [emit snd session] in Hb'.
      exists sd', w'. split; [exact Hloop|]. nia.
Qed.

Lemma auto_run_within (inp : inputs) (w : world) :
  0 < bet inp -> 3 * bet inp < 2 ^ 53 ->
  0 <= balance (session w) ->
  balance (session w) + 49 * bet inp * Z.max 0 (auto_count inp)
  < str_limit ->
  exists w' : world,
    auto_run inp w = (Ret tt, w')
    /\ 0 <= balance (session w')
       <= balance (session w) + 49 * bet inp * Z.max 0 (auto_count inp).
Proof.
  intros Hpos Hfit Hbal Hlim.
  unfold auto_run, bind at 1, get_session.
  destruct (auto_running (session w)); cbn [when];
    [|exists w; split; [reflexivity | nia]].
  unfold bind at 1, modify at 1.
  destruct (auto_loop_within inp Hpos Hfit (Z.to_nat (auto_count inp)) 0
              (with_session (set_action_in_progress true (session w)) w))
    as (sd' & w1 & Hloop & Hb1 & Hsd).
  { exact Hbal. }
  { cbn [with_session session set_action_in_progress balance]. lia. }
  cbn [with_session session set_action_in_progress balance] in Hb1.
  rewrite (bind_runs _ _ _ _ _ _ _ Hloop).
  unfold bind at 1, modify at 1. unfold bind at 1, modify at 1.
  unfold bind at 1, lift at 1.
  rewrite (str_Ret sd') by nia.
  eexists. split; [reflexivity|].
  cbn [emit snd with_session session set_action_in_progress set_auto_running
         balance].
  lia.
Qed.

Lemma spin_click_within (inp : inputs) (w : world) :
  0 < bet inp -> 3 * bet inp < 2 ^ 53 ->
  0 <= balance (session w) ->
  balance (session w) + 49 * bet inp < str_limit ->
  exists w' : world,
    spin_click inp w = (Ret tt, w')
    /\ 0 <= balance (session w') <= balance (session w) + 49 * bet inp.
Proof.
  intros Hpos Hfit Hbal Hlim.
  unfold spin_click, bind at 1, get_session.
  destruct (spin_btn inp && negb (action_in_progress (session w)));
    cbn [when]; [|exists w; split; [reflexivity | lia]].
  unfold bind at 1, modify at 1. unfold bind at 1.
  cbv beta iota.
  destruct (Z.leb_spec (bet inp) 0); [lia|].
  cbn [with_session session set_action_in_progress balance].
  destruct (Z.gtb_spec (bet inp) (balance (session w))).
  { eexists. split; [reflexivity|].
    cbn [emit snd with_session session set_action_in_progress balance].
    lia. }
  destruct (do_spin_within (bet inp) (animation_frames inp) (spin_speed inp)
              true
              (with_session (set_action_in_progress true (session w)) w)
              Hpos Hfit Hbal Hlim) as (w1 & Hdo & Hb1 & _).
  cbn [with_session session set_action_in_progress balance] in Hb1.
  rewrite (bind_runs _ _ _ _ _ _ _ Hdo).
  eexists. split; [reflexivity|].
  cbn [with_session session set_action_in_progress balance]. exact Hb1.
Qed.

(** A page run with a bet [b > 0], [3 * b < 2^53], in a session whose
    balance, raised by the stake of the run, can be printed: the run
    completes, and the balance stays within the stake. *)
Lemma script_within (inp : inputs) (w : world) :
  0 < bet inp -> 3 * bet inp < 2 ^ 53 ->
  0 <= balance (session w) ->
  Z.max START_BALANCE (balance (session w)) + stake inp < str_limit ->
  exists w' : world,
    script inp w = (Ret tt, w')
    /\ 0 <= balance (session w')
    /\ Z.max START_BALANCE (balance (session w'))
       <= Z.max START_BALANCE (balance (session w)) + stake inp.
Proof.
  intros Hpos Hfit Hbal Hlim. unfold stake, START_BALANCE in *.
  set (c := Z.max 0 (auto_count inp)) in *.
  assert (Hc : 0 <= c) by (subst c; lia).
  assert (Hcb : 0 <= 49 * bet inp * c) by nia.
  unfold script. unfold bind at 1, get_session at 1.
  unfold bind at 1, emit at 1. unfold bind at 1, emit at 1.
  unfold bind at 1, lift at 1.
  rewrite (str_Ret (balance (session w))) by lia.
  unfold bind at 1, emit at 1. cbv beta iota.
  match goal with
  | |- context [bind (when (reset_btn inp) reset_click) _ ?w4] =>
      assert (H5 : exists w5 : world,
                 when (reset_btn inp) reset_click w4 = (Ret tt, w5)
                 /\ 0 <= balance (session w5)
                    <= Z.max 1000 (balance (session w)))
        by (destruct (reset_btn inp); eexists;
            (split; [reflexivity|]); cbn; unfold START_BALANCE; lia);
      destruct H5 as (w5 & H5 & Hb5);
      rewrite (bind_runs _ _ _ _ _ _ _ H5)
  end.
  match goal with
  | |- context [bind (when (csv_btn inp) ?m) _ w5] =>
      assert (H6 : exists w6 : world,
                 when (csv_btn inp) m w5 = (Ret tt, w6)
                 /\ session w6 = session w5)
        by (destruct (csv_btn inp); eexists;
            (split; reflexivity));
      destruct H6 as (w6 & H6 & Hs6);
      rewrite (bind_runs _ _ _ _ _ _ _ H6)
  end.
  destruct (spin_click_within inp w6 Hpos Hfit)
    as (w7 & H7 & Hb7); [rewrite Hs6; lia | rewrite Hs6; nia|].
  rewrite Hs6 in Hb7.
  rewrite (bind_runs _ _ _ _ _ _ _ H7).
  match goal with
  | |- context [bind (when (auto_btn inp) ?m) _ w7] =>
      assert (H8 : exists w8 : world,
                 when (auto_btn inp) m w7 = (Ret tt, w8)
                 /\ balance (session w8) = balance (session w7))
        by (destruct (auto_btn inp); eexists;
            (split; reflexivity));
      destruct H8 as (w8 & H8 & Hb8);
      rewrite (bind_runs _ _ _ _ _ _ _ H8)
  end.
  destruct (auto_run_within inp w8 Hpos Hfit)
    as (w9 & H9 & Hb9); [rewrite Hb8; lia | rewrite Hb8; fold c; nia|].
  rewrite Hb8 in Hb9. fold c in Hb9.
  rewrite (bind_runs _ _ _ _ _ _ _ H9).
  unfold bind at 1, get_session at 1.
  destruct (history (session w9)); eexists; (split; [reflexivity|]);
    cbn [emit snd session]; nia.
Qed.

(** A session of page runs whose budget cannot take the balance to 4301
    digits: every run completes. *)
Lemma budget_completes (runs : list inputs) :
  Forall (fun inp => 0 < bet inp /\ 3 * bet inp < 2 ^ 53) runs ->
  forall w : world,
    0 <= balance (session w) ->
    Z.max START_BALANCE (balance (session w)) + budget runs < str_limit ->
    completes runs w = true.
Proof.
  induction 1 as [|inp runs [Hpos Hfit] Hruns IH]; intros w Hbal Hlim;
    [reflexivity|].
  cbn [completes budget fold_right] in *. fold (budget runs) in Hlim.
  assert (Hb : 0 <= budget runs).
  { clear -Hruns. induction Hruns as [|i l [Hp _] _ IHl]; [cbn; lia|].
    cbn [budget fold_right]. fold (budget l). unfold stake. nia. }
  destruct (script_within inp w Hpos Hfit Hbal ltac:(lia))
    as (w' & Hs & Hb' & Hmax).
  rewrite Hs. apply IH; [exact Hb' | lia].
Qed.

(** X8: in a session whose runs all had a bet [b > 0] and all ran to their
    end, the history accounts for the balance: each row has a positive bet
    and a payout that is not negative, its [balance_after] is that of the
    row before it (the start balance for the oldest row) minus its bet plus
    its payout, the newest row's [balance_after] is the balance of the
    session, and the balance is the start balance plus the payouts minus
    the bets of the rows.  The runs all run to their end, and so the
    history accounts for the balance, when the bets [b] all have
    [3 * b < 2^53] and the start balance plus the budget of the runs, 49
    times the bet for each spin a run can make, is below 10^4300. *)
Theorem history_accounts_for_balance (runs : list inputs)
  (rand : nat -> nat) (clock : nat -> datetime) :
  Forall (fun inp => 0 < bet inp) runs ->
  completes runs (new_world rand clock) = true
  \/ (Forall (fun inp => 3 * bet inp < 2 ^ 53) runs
      /\ START_BALANCE + budget runs < str_limit) ->
  let s := session (interact runs (new_world rand clock)) in
  audit START_BALANCE (history s) = true
  /\ balance s = closing START_BALANCE (history s)
  /\ balance s = START_BALANCE + net (history s).
Proof.
  intros Hruns Hends s.
  assert (Hc : completes runs (new_world rand clock) = true).
  { destruct Hends as [Hc|[Hfit Hlim]]; [exact Hc|].
    apply budget_completes.
    - apply Forall_and; assumption.
    - cbn. unfold START_BALANCE. lia.
    - cbn [new_world session init_state balance].
      rewrite Z.max_id. exact Hlim. }
  destruct (ledger_interact runs Hruns (new_world rand clock) Hc)
    as [Ha Hb]; [split; reflexivity|].
  fold s in Ha, Hb. split; [exact Ha|]. split; [exact Hb|].
  rewrite Hb. apply audit_net. exact Ha.
Qed.

(** A use of [history_accounts_for_balance]: two spin clicks, of 10 and of
    20, on a new session. *)
Lemma history_accounts_for_balance_witness :
  Forall (fun inp => 0 < bet inp) [spin_inputs 10; spin_inputs 20]
  /\ (Forall (fun inp => 3 * bet inp < 2 ^ 53)
        [spin_inputs 10; spin_inputs 20]
      /\ START_BALANCE + budget [spin_inputs 10; spin_inputs 20]
         < str_limit)
  /\ balance (session (interact [spin_inputs 10; spin_inputs 20]
                         sample_world))
     = START_BALANCE
       + net (history (session (interact [spin_inputs 10; spin_inputs 20]
                                  sample_world))).
Proof.
  assert (H1 : Forall (fun inp => 0 < bet inp)
                 [spin_inputs 10; spin_inputs 20])
    by (repeat constructor).
  assert (H2 : Forall (fun inp => 3 * bet inp < 2 ^ 53)
                 [spin_inputs 10; spin_inputs 20]
               /\ START_BALANCE + budget [spin_inputs 10; spin_inputs 20]
                  < str_limit)
    by (split; [repeat constructor | vm_compute; reflexivity]).
  split; [exact H1|]. split; [exact H2|].
  exact (proj2 (proj2 (history_accounts_for_balance
                         [spin_inputs 10; spin_inputs 20]
                         (fun i => i) sample_clock H1 (or_intror H2)))).
Defined.

(* ------------------------------------------------------------------ *)
(** ** The two flags *)

Lemma keeps_flags_do_spin (f : bool * bool) (b frames : Z)
  (speed : spec_float) (ps : bool) :
  keeps (fun s => flags s = f) (do_spin b frames speed ps).
Proof.
  intros w H.
  destruct (Z.gtb_spec b (balance (session w))) as [Hgt|Hle].
  - rewrite do_spin_rejected by lia. exact H.
  - destruct (do_spin_accepted b frames speed ps w Hle)
      as (_ & _ & _ & Har & Hap & _).
    unfold flags in *. rewrite Har, Hap. exact H.
Qed.

Lemma keeps_flags_auto_loop (f : bool * bool) (inp : inputs) (n : nat) :
  forall spins_done : Z,
    keeps (fun s => flags s = f) (auto_loop n inp spins_done).
Proof.
  pose proof (keeps_flags_do_spin f) as Hspin.
  induction n as [|n IH]; intros spins_done; cbn [auto_loop];
    auto 20 with keeps.
Qed.

(** A spin click that completes leaves both flags as it found them. *)
Lemma spin_click_flags (inp : inputs) (w w' : world) :
  spin_click inp w = (Ret tt, w') ->
  flags (session w') = flags (session w).
Proof.
  unfold spin_click, bind at 1, get_session.
  destruct (spin_btn inp && negb (action_in_progress (session w))) eqn:Hc;
    cbn [when].
  - apply andb_prop in Hc. destruct Hc as [_ Hc].
    apply negb_true_iff in Hc.
    intros H. apply bind_Ret in H. destruct H as ([] & w1 & H1 & H).
    injection H1 as <-.
    apply bind_Ret in H. destruct H as (s & w2 & H2 & H).
    injection H2 as <- <-.
    apply bind_Ret in H. destruct H as ([] & w3 & H3 & H).
    injection H as <-.
    assert (Hf : flags (session w3) = (auto_running (session w), true)).
    { cbv beta in H3.
      match type of H3 with
      | (if ?c1 then ?m1 else if ?c2 then ?m2 else ?m3) ?w1 = _ =>
          assert (Hk : keeps
                         (fun s => flags s = (auto_running (session w), true))
                         (if c1 then m1 else if c2 then m2 else m3))
            by (destruct c1; [apply keeps_emit|];
                destruct c2; [apply keeps_emit | apply keeps_flags_do_spin]);
          specialize (Hk w1 eq_refl); rewrite H3 in Hk
      end.
      exact Hk. }
    unfold flags in *. cbn [with_session session set_action_in_progress
                              auto_running action_in_progress].
    injection Hf as -> _. rewrite Hc. reflexivity.
  - intros H. injection H as <-. reflexivity.
Qed.

(** A spin click that raises leaves [action_in_progress] set. *)
Lemma spin_click_raised (inp : inputs) (w : world) (e : exn) :
  fst (spin_click inp w) = Raise e ->
  action_in_progress (session (snd (spin_click inp w))) = true.
Proof.
  remember (spin_click inp w) as r eqn:Er.
  unfold spin_click, bind at 1, get_session in Er.
  destruct (spin_btn inp && negb (action_in_progress (session w)));
    cbn [when] in Er; [|subst r; discriminate].
  unfold bind at 1 in Er. unfold modify at 1 in Er. cbv beta iota in Er.
  unfold bind at 1 in Er. cbv beta iota in Er. unfold bind at 1 in Er.
  match type of Er with
  | context [(if ?c1 then ?m1 else if ?c2 then ?m2 else ?m3) ?w1] =>
      assert (Hk : keeps (fun s => flags s = (auto_running (session w), true))
                     (if c1 then m1 else if c2 then m2 else m3))
        by (destruct c1; [apply keeps_emit|];
            destruct c2; [apply keeps_emit | apply keeps_flags_do_spin]);
      specialize (Hk w1 eq_refl);
      destruct ((if c1 then m1 else if c2 then m2 else m3) w1)
        as [[[]|e'] w3]
  end; subst r.
  - discriminate.
  - intros _. cbn [snd] in *. unfold flags in Hk. congruence.
Qed.

(** An auto-spin run that completes leaves both flags cleared if it found
    [auto_running] set, and changes nothing otherwise. *)
Lemma auto_run_flags (inp : inputs) (w w' : world) :
  auto_run inp w = (Ret tt, w') ->
  if auto_running (session w) then flags (session w') = (false, false)
  else w' = w.
Proof.
  unfold auto_run, bind at 1, get_session.
  destruct (auto_running (session w)); cbn [when].
  - intros H. apply bind_Ret in H. destruct H as ([] & w1 & _ & H).
    apply bind_Ret in H. destruct H as (sd & w2 & _ & H).
    unfold bind, modify, lift in H.
    destruct (str sd) as [text|e]; [|discriminate H].
    cbn in H. injection H as <-. reflexivity.
  - intros H. injection H as <-. reflexivity.
Qed.

Lemma keeps_flags_reset_click (f : bool * bool) :
  keeps (fun s => flags s = f) reset_click.
Proof. intros w H. exact H. Qed.

(** The flags a page run that completes leaves. *)
Lemma script_flags (inp : inputs) (w w' : world) :
  script inp w = (Ret tt, w') ->
  auto_running (session w') = false
  /\ (action_in_progress (session w) = false ->
      action_in_progress (session w') = false).
Proof.
  intros H. unfold script in H.
  apply bind_Ret in H. destruct H as (s0 & w1 & H1 & H).
  injection H1 as <- <-.
  apply bind_Ret in H. destruct H as ([] & w2 & H2 & H).
  injection H2 as <-.
  apply bind_Ret in H. destruct H as ([] & w3 & H3 & H).
  injection H3 as <-.
  apply bind_Ret in H. destruct H as (balance_text & w3' & H3' & H).
  unfold lift in H3'. injection H3' as _ <-.
  apply bind_Ret in H. destruct H as ([] & w3'' & H3'' & H).
  injection H3'' as <-.
  apply bind_Ret in H. destruct H as ([] & w4 & H4 & H).
  assert (F4 : flags (session w4) = flags (session w)).
  { pose proof (keeps_when (fun s => flags s = flags (session w))
                  (reset_btn inp) reset_click
                  (keeps_flags_reset_click _)) as Hk.
    match type of H4 with
    | _ ?w3 = _ => specialize (Hk w3 eq_refl)
    end.
    rewrite H4 in Hk. exact Hk. }
  clear H4.
  apply bind_Ret in H. destruct H as ([] & w5 & H5 & H).
  assert (F5 : flags (session w5) = flags (session w)).
  { destruct (csv_btn inp); cbn in H5; injection H5 as <-; exact F4. }
  clear H5.
  apply bind_Ret in H. destruct H as ([] & w6 & H6 & H).
  apply spin_click_flags in H6.
  apply bind_Ret in H. destruct H as ([] & w7 & H7 & H).
  apply bind_Ret in H. destruct H as ([] & w8 & H8 & H).
  apply auto_run_flags in H8.
  assert (F9 : flags (session w') = flags (session w8)).
  { apply bind_Ret in H. destruct H as (s8 & w9 & H9 & H).
    injection H9 as <- <-.
    destruct (history (session w8)); cbn in H; injection H as <-;
      reflexivity. }
  assert (F7 : flags (session w7)
               = (if auto_btn inp then negb (auto_running (session w))
                  else auto_running (session w),
                  action_in_progress (session w))).
  { unfold flags in *.
    destruct (auto_btn inp); cbn in H7; injection H7 as <-;
      cbn [with_session session set_auto_running auto_running
             action_in_progress]; congruence. }
  unfold flags in *.
  destruct (auto_running (session w7)) eqn:Har.
  - rewrite H8 in F9. injection F9 as -> ->. split; [reflexivity|].
    intros _. reflexivity.
  - subst w8. injection F9 as -> ->. split; [exact Har|].
    intros Hap. injection F7 as _ ->. exact Hap.
Qed.

(** X9: a page run that completes leaves [auto_running] cleared and, if it
    found [action_in_progress] cleared, leaves it cleared; so both flags
    are cleared at the start of every run of a session whose runs so far
    all ran to their end, as they do when the bets [b > 0] all have
    [3 * b < 2^53] and the start balance plus the budget of the runs is
    below 10^4300.  The auto-spin loop never changes the flags: a run of
    the loop that started with [auto_running] set never finds it
    cleared. *)
Theorem flags_clear_between_runs (inp : inputs) (w : world) :
  (fst (script inp w) = Ret tt ->
   auto_running (session (snd (script inp w))) = false
   /\ (action_in_progress (session w) = false ->
       action_in_progress (session (snd (script inp w))) = false))
  /\ (forall (runs : list inputs) (rand : nat -> nat)
        (clock : nat -> datetime),
        completes runs (new_world rand clock) = true
        \/ (Forall (fun i => 0 < bet i /\ 3 * bet i < 2 ^ 53) runs
            /\ START_BALANCE + budget runs < str_limit) ->
        flags (session (interact runs (new_world rand clock)))
        = (false, false))
  /\ (forall (n : nat) (sd : Z),
        flags (session (snd (auto_loop n inp sd w))) = flags (session w)).
Proof.
  split; [|split].
  - intros Hr. apply (script_flags inp w).
    destruct (script inp w) as [r w']. cbn [fst snd] in *. congruence.
  - intros runs rand clock Hends.
    assert (Hc : completes runs (new_world rand clock) = true).
    { destruct Hends as [Hc|[Hruns Hlim]]; [exact Hc|].
      apply budget_completes.
      - exact Hruns.
      - cbn. unfold START_BALANCE. lia.
      - cbn [new_world session init_state balance].
        rewrite Z.max_id. exact Hlim. }
    assert (H : forall w0, completes runs w0 = true ->
                           flags (session w0) = (false, false) ->
                           flags (session (interact runs w0))
                           = (false, false)).
    { clear Hends Hc.
      induction runs as [|i runs IH]; intros w0 Hc0 Hw0; [exact Hw0|].
      cbn [interact completes] in *.
      destruct (script i w0) as [[[]|e] w1] eqn:Hs; [|discriminate Hc0].
      cbn [snd]. apply IH; [exact Hc0|].
      apply script_flags in Hs. destruct Hs as [Ha Hp].
      unfold flags in *. rewrite Ha, Hp; [reflexivity | congruence]. }
    apply H; [exact Hc | reflexivity].
  - intros n sd. apply (keeps_flags_auto_loop (flags (session w))).
    reflexivity.
Qed.

(** A use of [flags_clear_between_runs]: a spin click with bet 10 on a new
    session. *)
Lemma flags_clear_between_runs_witness :
  fst (script (spin_inputs 10) sample_world) = Ret tt
  /\ auto_running (session (snd (script (spin_inputs 10) sample_world)))
     = false.
Proof.
  assert (H : fst (script (spin_inputs 10) sample_world) = Ret tt)
    by (vm_compute; reflexivity).
  split; [exact H|].
  exact (proj1 (proj1 (flags_clear_between_runs (spin_inputs 10)
                         sample_world) H)).
Defined.

(** X10: a spin click that raises leaves [action_in_progress] set, and while it
    is set the spin handler does nothing, whatever the bet: no warning, no
    spin, the world as it was. *)
Theorem raised_spin_locks_spin_button (inp inp' : inputs) (w : world)
  (e : exn) :
  fst (spin_click inp w) = Raise e ->
  action_in_progress (session (snd (spin_click inp w))) = true
  /\ spin_click inp' (snd (spin_click inp w))
     = (Ret tt, snd (spin_click inp w)).
Proof.
  intros H. pose proof (spin_click_raised inp w e H) as Hap.
  split; [exact Hap|].
  unfold spin_click at 1, bind, get_session. rewrite Hap.
  rewrite andb_false_r. reflexivity.
Qed.

(** A use of [raised_spin_locks_spin_button]: a spin click with bet 2^1024
    on a balance of 2^1025, then one with bet 10. *)
Lemma raised_spin_locks_spin_button_witness :
  fst (spin_click (spin_inputs (2 ^ 1024)) rich_world) = Raise OverflowError
  /\ spin_click (spin_inputs 10)
       (snd (spin_click (spin_inputs (2 ^ 1024)) rich_world))
     = (Ret tt, snd (spin_click (spin_inputs (2 ^ 1024)) rich_world)).
Proof.
  assert (H : fst (spin_click (spin_inputs (2 ^ 1024)) rich_world)
              = Raise OverflowError) by (vm_compute; reflexivity).
  split; [exact H|].
  exact (proj2 (raised_spin_locks_spin_button (spin_inputs (2 ^ 1024))
                  (spin_inputs 10) rich_world OverflowError H)).
Defined.

(* ------------------------------------------------------------------ *)
(** ** What a page run shows *)

Lemma emits_ret (P : effect -> Prop) (A : Type) (a : A) : emits P (ret a).
Proof. intros w. exists []. split; [reflexivity | constructor]. Qed.

Lemma emits_bind (P : effect -> Prop) (A B : Type) (m : M A)
  (k : A -> M B) :
  emits P m -> (forall a : A, emits P (k a)) -> emits P (bind m k).
Proof.
  intros Hm Hk w. unfold bind.
  destruct (Hm w) as (l1 & H1 & F1).
  destruct (m w) as [[a|e] w1]; cbn [snd] in *.
  - destruct (Hk a w1) as (l2 & H2 & F2).
    exists (l2 ++ l1). rewrite H2, H1, app_assoc.
    split; [reflexivity | apply Forall_app; split; assumption].
  - exists l1. split; assumption.
Qed.

Lemma emits_silent (P : effect -> Prop) (A : Type) (m : M A) :
  (forall w : world, effects (snd (m w)) = effects w) -> emits P m.
Proof.
  intros H w. exists []. split; [apply H | constructor].
Qed.

Lemma emits_emit (P : effect -> Prop) (e : effect) : P e -> emits P (emit e).
Proof.
  intros H w. exists [e]. split; [reflexivity | repeat constructor; exact H].
Qed.

Lemma emits_when (P : effect -> Prop) (c : bool) (m : M unit) :
  emits P m -> emits P (when c m).
Proof. intros Hm. destruct c; [exact Hm | apply emits_ret]. Qed.

(** Three draws show nothing, and give three reels. *)
Lemma emits_draw_3 (P : effect -> Prop) (B : Type)
  (k : list string -> M B) :
  (forall reels : list string,
      List.length reels = 3%nat -> emits P (k reels)) ->
  emits P (bind (comprehension 3 (random_choice SYMBOLS)) k).
Proof.
  intros Hk w. unfold bind. rewrite comprehension_3_choices.
  match goal with
  | |- context [k ?r ?w1] => destruct (Hk r eq_refl w1) as (l & Hl & Fl)
  end.
  exists l. split; [exact Hl | exact Fl].
Qed.

Create HintDb emits.
#[local] Hint Resolve emits_ret emits_when : emits.
#[local] Hint Extern 0 (emits _ (bind (comprehension 3 _) _)) =>
  apply emits_draw_3; intros : emits.
#[local] Hint Extern 1 (emits _ (bind _ _)) =>
  apply emits_bind; [|intros] : emits.
#[local] Hint Extern 1 (emits _ (emit _)) =>
  apply emits_emit; split; first [exact I | exact eq_refl | assumption]
  : emits.
#[local] Hint Extern 1 (emits _ get_session) =>
  apply emits_silent; reflexivity : emits.
#[local] Hint Extern 1 (emits _ (modify _)) =>
  apply emits_silent; reflexivity : emits.
#[local] Hint Extern 1 (emits _ datetime_now) =>
  apply emits_silent; reflexivity : emits.
#[local] Hint Extern 1 (emits _ (lift _)) =>
  apply emits_silent; reflexivity : emits.
#[local] Hint Extern 1 (emits _ (if _ then _ else _)) =>
  match goal with |- emits _ (if ?c then _ else _) => destruct c end : emits.
#[local] Hint Extern 1 (emits _ (match ?x with (_, _) => _ end)) =>
  destruct x : emits.
#[local] Hint Extern 1 (emits _ (match history ?s with _ => _ end)) =>
  destruct (history s) : emits.

Lemma emits_animation (n : nat) (speed : spec_float) (ps : bool) :
  emits well_shown (animation n speed ps).
Proof.
  induction n as [|n IH]; cbn [animation]; auto 10 with emits.
Qed.

Lemma emits_do_spin (b frames : Z) (speed : spec_float) (ps : bool) :
  emits well_shown (do_spin b frames speed ps).
Proof.
  pose proof (emits_animation (Z.to_nat frames) speed ps) as Ha.
  unfold do_spin, spin_once. auto 30 with emits.
Qed.

Lemma emits_auto_loop (inp : inputs) (n : nat) :
  forall spins_done : Z,
    emits well_shown (auto_loop n inp spins_done).
Proof.
  pose proof (emits_do_spin (bet inp) (animation_frames inp) (spin_speed inp)
                true) as Hs.
  induction n as [|n IH]; intros spins_done; cbn [auto_loop];
    auto 20 with emits.
Qed.

Lemma emits_reset_click : emits well_shown reset_click.
Proof.
  intros w. exists [Image ["-"; "-"; "-"]].
  split; [reflexivity | repeat constructor].
Qed.

Lemma emits_spin_click (inp : inputs) : emits well_shown (spin_click inp).
Proof.
  pose proof (emits_do_spin (bet inp) (animation_frames inp) (spin_speed inp)
                true) as Hs.
  unfold spin_click. auto 20 with emits.
Qed.

Lemma emits_auto_run (inp : inputs) : emits well_shown (auto_run inp).
Proof.
  pose proof (emits_auto_loop inp) as Hloop.
  unfold auto_run. auto 20 with emits.
Qed.

#[local] Hint Resolve emits_reset_click emits_spin_click emits_auto_run
  : emits.

(** What a page run shows: the reels and the message of the session as the
    run found them, then what its handlers show. *)
Lemma script_shows (inp : inputs) (w : world) :
  exists later : list effect,
    effects (snd (script inp w))
    = later ++ Info (message (session w))
               :: Image (last_reels (session w)) :: effects w
    /\ Forall well_shown later.
Proof.
  unfold script. unfold bind at 1. unfold get_session at 1.
  unfold bind at 1, emit at 1. unfold bind at 1, emit at 1.
  cbv beta iota.
  match goal with
  | |- context [snd (bind ?m ?k ?w2)] =>
      assert (Hrest : emits well_shown (bind m k))
        by auto 30 with emits;
      destruct (Hrest w2) as (later & Hl & Fl)
  end.
  exists later. split; [exact Hl | exact Fl].
Qed.

(** X11: the [st.info] banner that shows the message of the session is shown
    once in a page run, before any handler runs, with the message and,
    above it, the reels the session held when the run started.  Whatever
    the run does afterwards is added to what is shown and brings no other
    banner than the notice of an empty history: the message a spin stores
    is not shown by the run that made the spin. *)
Theorem result_banner_is_stale (inp : inputs) (w : world) :
  exists later : list effect,
    effects (snd (script inp w))
    = later ++ Info (message (session w))
               :: Image (last_reels (session w)) :: effects w
    /\ Forall no_result_banner later.
Proof.
  destruct (script_shows inp w) as (later & Hl & Fl).
  exists later. split; [exact Hl|].
  apply (Forall_impl _ (fun e (H : well_shown e) => proj1 H) Fl).
Qed.

(* ------------------------------------------------------------------ *)
(** ** The reels shown *)

Lemma keeps_three_reels_do_spin (b frames : Z) (speed : spec_float)
  (ps : bool) :
  keeps (fun s => List.length (last_reels s) = 3%nat)
    (do_spin b frames speed ps).
Proof.
  intros w H.
  destruct (Z.gtb_spec b (balance (session w))) as [Hgt|Hle].
  - rewrite do_spin_rejected by lia. exact H.
  - destruct (do_spin_accepted b frames speed ps w Hle) as (_ & Hlr & _).
    cbv zeta in Hlr. rewrite Hlr. reflexivity.
Qed.

Lemma keeps_three_reels_auto_loop (inp : inputs) (n : nat) :
  forall spins_done : Z,
    keeps (fun s => List.length (last_reels s) = 3%nat)
      (auto_loop n inp spins_done).
Proof.
  pose proof keeps_three_reels_do_spin as Hspin.
  induction n as [|n IH]; intros spins_done; cbn [auto_loop];
    auto 20 with keeps.
Qed.

Lemma keeps_three_reels_script (inp : inputs) :
  keeps (fun s => List.length (last_reels s) = 3%nat) (script inp).
Proof.
  pose proof keeps_three_reels_do_spin as Hspin.
  pose proof (keeps_three_reels_auto_loop inp) as Hloop.
  assert (Hmod : forall f : session_state -> session_state,
             (forall s, last_reels (f s) = last_reels s) ->
             keeps (fun s => List.length (last_reels s) = 3%nat) (modify f)).
  { intros f Hf. apply keeps_modify. intros s Hs. rewrite Hf. exact Hs. }
  assert (Hreset : keeps (fun s => List.length (last_reels s) = 3%nat)
                     reset_click) by (intros w _; reflexivity).
  unfold script, spin_click, auto_run.
  repeat first
    [ exact Hreset
    | apply Hloop
    | apply Hspin
    | apply keeps_bind; [|intros]
    | apply keeps_when
    | apply keeps_get_session
    | apply keeps_emit
    | apply Hmod; reflexivity
    | match goal with
      | |- keeps _ (if ?c then _ else _) => destruct c
      | |- keeps _ (match history ?s with _ => _ end) => destruct (history s)
      end ].
Qed.

(** X12: every image shown in a session, by a page run, by an animation frame,
    by the outcome of a spin or by a reset, shows exactly three reels, and
    the session always holds three last reels: [render_reels_as_image] is
    only called with three reels. *)
Theorem images_show_three_reels (runs : list inputs) (rand : nat -> nat)
  (clock : nat -> datetime) :
  Forall shows_three (effects (interact runs (new_world rand clock)))
  /\ List.length (last_reels (session (interact runs (new_world rand clock))))
     = 3%nat.
Proof.
  assert (H : forall w,
             Forall shows_three (effects w)
             /\ List.length (last_reels (session w)) = 3%nat ->
             Forall shows_three (effects (interact runs w))
             /\ List.length (last_reels (session (interact runs w))) = 3%nat).
  { induction runs as [|inp runs IH]; intros w [Hfx Hlr]; [split; assumption|].
    cbn [interact]. apply IH. split.
    - destruct (script_shows inp w) as (later & -> & Fl).
      apply Forall_app. split.
      + apply (Forall_impl _ (fun e (H : well_shown e) => proj2 H) Fl).
      + constructor; [exact I|]. constructor; [exact Hlr | exact Hfx].
    - apply keeps_three_reels_script. exact Hlr. }
  apply H. split; [constructor | reflexivity].
Qed.

(* ------------------------------------------------------------------ *)
(** ** The image of the reels *)

Lemma check_corners_Ret (x0 y0 x1 y1 : Z) :
  x0 <= x1 -> y0 <= y1 -> check_corners x0 y0 x1 y1 = Ret tt.
Proof.
  intros Hx Hy. unfold check_corners.
  destruct (Z.ltb_spec x1 x0); [lia|].
  destruct (Z.ltb_spec y1 y0); [lia | reflexivity].
Qed.

Lemma check_corners_Raise (x0 y0 x1 y1 : Z) :
  x1 < x0 \/ y1 < y0 -> check_corners x0 y0 x1 y1 = Raise ValueError.
Proof.
  intros H. unfold check_corners.
  destruct (Z.ltb_spec x1 x0); [reflexivity|].
  destruct (Z.ltb_spec y1 y0); [reflexivity | lia].
Qed.

Lemma check_size_Ret (width height : Z) :
  0 <= width -> 0 <= height -> check_size width height = Ret tt.
Proof.
  intros Hw Hh. unfold check_size.
  destruct (Z.ltb_spec width 0); [lia|].
  destruct (Z.ltb_spec height 0); [lia | reflexivity].
Qed.

Lemma check_size_raises (width height : Z) (e : exn) :
  check_size width height = Raise e -> e = ValueError.
Proof.
  unfold check_size. destruct (_ || _); congruence.
Qed.

(** The boxes are all drawn when none has a negative width or height. *)
Lemma draw_boxes_Ret (reels : list string) (box_w gap height : Z) :
  0 <= box_w -> 24 <= height ->
  forall x : Z,
  exists l : list shape,
    draw_boxes reels x box_w gap height = Ret l
    /\ List.length l = (2 * List.length reels)%nat
    /\ forall (k : nat) (symbol : string),
         nth_error reels k = Some symbol ->
         nth_error l (2 * k)
         = Some (RoundedRectangle (x + Z.of_nat k * (box_w + gap)) 12
                   (x + Z.of_nat k * (box_w + gap) + box_w) (height - 12) 12
                   (255, 255, 255))
         /\ nth_error l (2 * k + 1)
            = Some (Text (x + Z.of_nat k * (box_w + gap) + box_w / 4)
                      (height / 4) symbol (20, 20, 20)).
Proof.
  intros Hb Hh. induction reels as [|r reels IH]; intros x.
  - exists []. split; [reflexivity|]. split; [reflexivity|].
    intros k symbol Hk. destruct k; discriminate Hk.
  - destruct (IH (x + box_w + gap)) as (l & Hl & Hlen & Hnth).
    cbn [draw_boxes]. rewrite check_corners_Ret by lia.
    cbn [res_bind]. rewrite Hl. cbn [res_bind].
    eexists. split; [reflexivity|].
    split; [cbn [List.length]; lia|].
    intros k symbol Hk. destruct k as [|k].
    + injection Hk as ->. cbn [Nat.mul Nat.add nth_error].
      replace (x + Z.of_nat 0 * (box_w + gap)) with x by lia.
      split; reflexivity.
    + cbn [nth_error] in Hk.
      destruct (Hnth k symbol Hk) as [H1 H2].
      replace (2 * S k)%nat with (S (S (2 * k))) by lia.
      replace (S (S (2 * k)) + 1)%nat with (S (S (2 * k + 1))) by lia.
      cbn [nth_error].
      replace (x + Z.of_nat (S k) * (box_w + gap))
        with (x + box_w + gap + Z.of_nat k * (box_w + gap)) by lia.
      split; assumption.
Qed.

(** The first box is refused when its width or its height is negative. *)
Lemma draw_boxes_Raise (symbol : string) (reels : list string)
  (x box_w gap height : Z) :
  box_w < 0 \/ height < 24 ->
  draw_boxes (symbol :: reels) x box_w gap height = Raise ValueError.
Proof.
  intros H. cbn [draw_boxes].
  rewrite check_corners_Raise by lia. reflexivity.
Qed.

(** X13: on an image at least 40 wide and 24 high, [render_reels_as_image]
    draws, for the reel at position [k] (from 0), a rounded box of width
    [(width - 40) // 3] whose left edge is [20 + k * ((width - 40) // 3 +
    10)], from 12 below the top to 12 above the bottom, then the symbol of
    that reel a quarter of the box width to the right of that edge and a
    quarter of the height down; after the boxes of all reels it draws the
    outline of the image, and nothing else.  On a narrower or lower image
    the first box is refused, if not the image itself, and
    [render_reels_as_image] raises [ValueError].  At the default size, 540
    by 160, the image of any reels is drawn. *)
Theorem render_reels_layout (reels : list string) (width height : Z)
  (bg : color) (k : nat) (symbol : string) :
  nth_error reels k = Some symbol ->
  let box_w := (width - 40) / 3 in
  let x := 20 + Z.of_nat k * (box_w + 10) in
  (40 <= width -> 24 <= height ->
   exists im : picture,
     render_reels_as_image reels width height bg = Ret im
     /\ nth_error (shapes im) (2 * k)
        = Some (RoundedRectangle x 12 (x + box_w) (height - 12) 12
                  (255, 255, 255))
     /\ nth_error (shapes im) (2 * k + 1)
        = Some (Text (x + box_w / 4) (height / 4) symbol (20, 20, 20))
     /\ nth_error (shapes im) (2 * List.length reels)
        = Some (Rectangle 0 0 (width - 1) (height - 1) (230, 180, 255))
     /\ List.length (shapes im) = (2 * List.length reels + 1)%nat
     /\ size im = (width, height) /\ background im = bg)
  /\ (width < 40 \/ height < 24 ->
      render_reels_as_image reels width height bg = Raise ValueError)
  /\ (forall reels' : list string,
        exists im : picture,
          render_reels_as_image reels' 540 160 bg = Ret im
          /\ List.length (shapes im) = (2 * List.length reels' + 1)%nat).
Proof.
  intros Hk box_w x. subst x. split; [|split].
  - intros Hw Hh.
    assert (Hb : 0 <= box_w) by (apply Z.div_pos; lia).
    destruct (draw_boxes_Ret reels box_w 10 height Hb Hh 20)
      as (l & Hl & Hlen & Hnth).
    destruct (Hnth k symbol Hk) as [H1 H2].
    assert (Hlt : (k < List.length reels)%nat)
      by (apply nth_error_Some; congruence).
    unfold render_reels_as_image. fold box_w.
    rewrite check_size_Ret by lia. cbn [res_bind].
    rewrite Hl. cbn [res_bind].
    rewrite check_corners_Ret by lia. cbn [res_bind].
    eexists. split; [reflexivity|]. cbn [shapes size background].
    split; [|split; [|split; [|split; [|split]]]]; try reflexivity.
    + rewrite nth_error_app1 by lia. exact H1.
    + rewrite nth_error_app1 by lia. exact H2.
    + rewrite nth_error_app2 by lia. rewrite Hlen, Nat.sub_diag.
      reflexivity.
    + rewrite length_app, Hlen. cbn. lia.
  - intros Hsmall. destruct reels as [|r reels]; [destruct k; discriminate|].
    unfold render_reels_as_image. fold box_w.
    destruct (check_size width height) as [[]|e] eqn:Es; cbn [res_bind].
    + rewrite draw_boxes_Raise; [reflexivity|].
      destruct Hsmall as [Hw|Hh]; [left | right; exact Hh].
      subst box_w. apply Z.div_lt_upper_bound; lia.
    + apply check_size_raises in Es. congruence.
  - intros reels'.
    destruct (draw_boxes_Ret reels' ((540 - 40) / 3) 10 160
                ltac:(vm_compute; discriminate)
                ltac:(vm_compute; discriminate) 20)
      as (l & Hl & Hlen & _).
    unfold render_reels_as_image.
    rewrite check_size_Ret by lia. cbn [res_bind].
    rewrite Hl. cbn [res_bind].
    rewrite check_corners_Ret by lia. cbn [res_bind].
    eexists. split; [reflexivity|]. cbn [shapes].
    rewrite length_app, Hlen. cbn. lia.
Qed.

(** A use of [render_reels_layout]: the third box of the image of three
    reels, 540 by 160. *)
Lemma render_reels_layout_witness :
  nth_error ["🍒"; "🔔"; "🍋"] 2 = Some "🍋"
  /\ exists im : picture,
       render_reels_as_image ["🍒"; "🔔"; "🍋"] 540 160 (255, 255, 245)
       = Ret im
       /\ nth_error (shapes im) 4
          = Some (RoundedRectangle 372 12 538 148 12 (255, 255, 255)).
Proof.
  assert (H : nth_error ["🍒"; "🔔"; "🍋"] 2 = Some "🍋") by reflexivity.
  split; [exact H|].
  destruct (proj1 (render_reels_layout ["🍒"; "🔔"; "🍋"] 540 160
                     (255, 255, 245) 2 "🍋" H)
              ltac:(vm_compute; discriminate)
              ltac:(vm_compute; discriminate))
    as (im & Him & H4 & _).
  exists im. split; [exact Him | exact H4].
Defined.

(** X14: for three reels, a width of at least 40 and a height of at least
    24, the image is drawn and its three boxes are drawn left to right, 10
    apart, none of negative width, the first from x = 20; the third ends at
    [width - (width - 40) mod 3], that is less than 3 from the right edge
    of the image, against 20 on the left, and at [width] itself, one past
    the last column of pixels, when [width - 40] is a multiple of 3.  Each
    symbol is anchored inside its box. *)
Theorem render_three_reels_fit (r0 r1 r2 : string) (width height : Z)
  (bg : color) :
  40 <= width -> 24 <= height ->
  let box_w := (width - 40) / 3 in
  (exists im : picture,
      render_reels_as_image [r0; r1; r2] width height bg = Ret im
      /\ boxes (shapes im)
         = [(20, 20 + box_w); (30 + box_w, 30 + 2 * box_w);
            (40 + 2 * box_w, 40 + 3 * box_w)])
  /\ 0 <= box_w
  /\ 40 + 3 * box_w = width - (width - 40) mod 3
  /\ width - 3 < 40 + 3 * box_w <= width
  /\ (40 + 3 * box_w <= width - 1 <-> (width - 40) mod 3 <> 0)
  /\ 0 <= box_w / 4 <= box_w.
Proof.
  intros Hw Hh box_w.
  pose proof (Z.div_mod (width - 40) 3 ltac:(lia)) as Hdm.
  pose proof (Z.mod_pos_bound (width - 40) 3 ltac:(lia)) as Hmod.
  fold box_w in Hdm.
  assert (Hb : 0 <= box_w) by (apply Z.div_pos; lia).
  split.
  { unfold render_reels_as_image. fold box_w.
    rewrite check_size_Ret by lia. cbn [res_bind draw_boxes].
    repeat (rewrite check_corners_Ret by lia; cbn [res_bind]).
    eexists. split; [reflexivity|]. cbn [shapes boxes app].
    repeat (apply f_equal2; [apply f_equal2; lia|]). reflexivity. }
  split; [exact Hb|]. split; [lia|]. split; [lia|]. split; [lia|].
  split; [apply Z.div_pos; lia|].
  apply Z.div_le_upper_bound; lia.
Qed.

(** A use of [render_three_reels_fit]: the boxes of the image of the blank
    reels, 540 by 160. *)
Lemma render_three_reels_fit_witness :
  (40 <= 540 /\ 24 <= 160)
  /\ exists im : picture,
       render_reels_as_image ["-"; "-"; "-"] 540 160 (255, 255, 245)
       = Ret im
       /\ boxes (shapes im) = [(20, 186); (196, 362); (372, 538)].
Proof.
  assert (H1 : 40 <= 540) by (vm_compute; discriminate).
  assert (H2 : 24 <= 160) by (vm_compute; discriminate).
  split; [split; assumption|].
  exact (proj1 (render_three_reels_fit "-" "-" "-" 540 160 (255, 255, 245)
                  H1 H2)).
Defined.

(* ------------------------------------------------------------------ *)
(** ** The history display *)

(** X15: the history display at the end of a page run that completes shows the
    history as the run leaves it, the spins of the run included: it is the
    last thing the run shows, the table of all rows or, on an empty
    history, the notice that there is none yet. *)
Theorem history_table_is_current (inp : inputs) (w : world) :
  fst (script inp w) = Ret tt ->
  exists earlier : list effect,
    effects (snd (script inp w))
    = match history (session (snd (script inp w))) with
      | [] => Info "Belum ada riwayat — mainkan dulu beberapa putaran!"
      | _ :: _ => Dataframe (history (session (snd (script inp w))))
      end :: earlier.
Proof.
  destruct (script inp w) as [r w'] eqn:Hs. cbn [fst snd]. intros ->.
  unfold script in Hs.
  do 10 (apply bind_Ret in Hs; destruct Hs as (? & ? & _ & Hs)).
  unfold bind, get_session in Hs.
  match type of Hs with
  | context [history (session ?w8)] =>
      destruct (history (session w8)) as [|e rows] eqn:Hh
  end; cbn in Hs; injection Hs as <-; cbn [session effects];
    rewrite Hh; eexists; reflexivity.
Qed.

(** A use of [history_table_is_current]: a spin click with bet 10 on a new
    session. *)
Lemma history_table_is_current_witness :
  fst (script (spin_inputs 10) sample_world) = Ret tt
  /\ exists earlier : list effect,
       effects (snd (script (spin_inputs 10) sample_world))
       = Dataframe (history (session (snd (script (spin_inputs 10)
                                             sample_world))))
           :: earlier.
Proof.
  assert (H : fst (script (spin_inputs 10) sample_world) = Ret tt)
    by (vm_compute; reflexivity).
  split; [exact H|].
  destruct (history_table_is_current (spin_inputs 10) sample_world H)
    as (earlier & He).
  exists earlier. rewrite He. vm_compute. reflexivity.
Defined.
